(** * emacs-speech-input: the real-time transcription client

    A shallow embedding of [src/openai_realtime_api.py] (class
    [OpenAIRealtimeTranscriber]) and the properties of its event handling,
    frame encoding and session teardown.

    Python values are embedded as follows.
    - [str] is a list of Unicode code points ([pystr]); [str.strip] uses the
      interpreter's whitespace table.
    - the values produced by [json.loads] are the inductive type [json];
      a [dict] is an association list in insertion order, looked up by key.
    - [bytes] is [list byte].
    - code that prints and may raise runs in the monad [M]: the trace of
      effects performed so far, and either a value or the exception raised.
    - standard output is a UTF-8 text stream with the error handler
      [strict]: printing a [str] as it is raises when it holds a surrogate. *)

From Stdlib Require Import List String Ascii Strings.Byte NArith ZArith Bool Lia.
Import ListNotations.
Local Open Scope list_scope.
Set Warnings "-register-all".

(** ** Python strings *)

Definition pystr := list N.

(** A Rocq string literal read as a Python [str] (one code point per
    character; the literals of the program are ASCII). *)
Definition str (s : string) : pystr :=
  List.map N_of_ascii (list_ascii_of_string s).

Fixpoint str_eqb (a b : pystr) : bool :=
  match a, b with
  | [], [] => true
  | x :: a', y :: b' => N.eqb x y && str_eqb a' b'
  | _, _ => false
  end.

(** [str.isspace] on one code point: the interpreter's whitespace table
    (bidirectional types WS, B, S and category Zs). *)
Definition isspace (c : N) : bool :=
  ((9 <=? c) && (c <=? 13)
   || (28 <=? c) && (c <=? 32)
   || (c =? 133) || (c =? 160) || (c =? 5760)
   || (8192 <=? c) && (c <=? 8202)
   || (c =? 8232) || (c =? 8233) || (c =? 8239) || (c =? 8287)
   || (c =? 12288))%N.

Fixpoint lstrip (s : pystr) : pystr :=
  match s with
  | [] => []
  | c :: s' => if isspace c then lstrip s' else s
  end.

Definition rstrip (s : pystr) : pystr := rev (lstrip (rev s)).

(** [s.strip()] with no argument: leading and trailing whitespace removed. *)
Definition strip (s : pystr) : pystr := rstrip (lstrip s).

(** Truth value of a [str]: non-empty. *)
Definition str_truthy (s : pystr) : bool :=
  match s with [] => false | _ :: _ => true end.

(** ** JSON values, as [json.loads] builds them *)

(** A float is kept as the decimal value [m * 10^e] of its literal; the
    program never computes with numbers. *)
Inductive pyfloat :=
| Finite (m e : Z)
| Infinity (negative : bool)
| NaN.

Inductive json :=
| JNull
| JBool (b : bool)
| JInt (z : Z)
| JFloat (f : pyfloat)
| JStr (s : pystr)
| JList (l : list json)
| JDict (d : list (pystr * json)).

Definition dict := list (pystr * json).

(** [d.get(key)] as an option: the first binding of [key]. *)
Fixpoint lookup (key : pystr) (d : dict) : option json :=
  match d with
  | [] => None
  | (k, v) :: d' => if str_eqb k key then Some v else lookup key d'
  end.

(** [key in d] *)
Definition contains (key : pystr) (d : dict) : bool :=
  match lookup key d with Some _ => true | None => false end.

(** [v == s] for a string literal [s]: a value that is not a [str] is never
    equal to one. *)
Definition eq_str (v : json) (s : pystr) : bool :=
  match v with
  | JStr t => str_eqb t s
  | _ => false
  end.

(** ** Exceptions *)

Inductive exn :=
| JSONDecodeError (msg : pystr)
| AttributeError (obj : json) (name : pystr)
| KeyError (key : pystr)
| ConnectionClosed (ok : bool)
| OtherException (cls msg : pystr)
| CancelledError.

(** [isinstance(e, json.JSONDecodeError)] *)
Definition is_JSONDecodeError (e : exn) : bool :=
  match e with JSONDecodeError _ => true | _ => false end.

(** [isinstance(e, ConnectionClosed)] *)
Definition is_ConnectionClosed (e : exn) : bool :=
  match e with ConnectionClosed _ => true | _ => false end.

(** [isinstance(e, Exception)]: everything but [asyncio.CancelledError],
    which derives from [BaseException] only. *)
Definition is_Exception (e : exn) : bool :=
  match e with CancelledError => false | _ => true end.

(** ** Effects *)

(** One constructor per [print] call of the program, holding the values
    that the call formats. *)
Inductive line :=
| Session_created (event : json)
| Speech_started (event : json)
| Speech_stopped (event : json)
| Handling (event : json)
| Output (record : json)
| Error (event : json)
| Received_event (event_type : json)
| Failed_to_decode_message (e : exn)
| Error_handling_server_event (e : exn)
| Connection_to_OpenAI_closed
| Error_in_handle_server_events (e : exn)
| Error_streaming_audio (e : exn)
| Error_in_audio_streaming (e : exn)
| Connection_error (e : exn).

Inductive effect :=
| Print (l : line)
| Websocket_open
| Websocket_send (payload : json)
| Websocket_close
| Set_running (b : bool)
| Stream_open
| Stream_stop
| Stream_close
| Sleep
| Audio_terminate.

(** ** The monad of printing, raising code *)

Definition M (A : Type) : Type := list effect * (A + exn).

Definition ret {A} (a : A) : M A := ([], inl a).

Definition raise {A} (e : exn) : M A := ([], inr e).

Definition bind {A B} (m : M A) (k : A -> M B) : M B :=
  match m with
  | (out, inl a) => let '(out', r) := k a in (out ++ out', r)
  | (out, inr e) => (out, inr e)
  end.

Definition perform (f : effect) : M unit := ([f], inl tt).

Definition print (l : line) : M unit := perform (Print l).

(** [try: body except ...: handler]; [handler e = None] when no [except]
    clause matches [e]. *)
Definition try_except {A} (body : M A) (handler : exn -> option (M A)) : M A :=
  match body with
  | (out, inl a) => (out, inl a)
  | (out, inr e) =>
      match handler e with
      | Some h => let '(out', r) := h in (out ++ out', r)
      | None => (out, inr e)
      end
  end.

(** [try: body finally: final] *)
Definition try_finally {A} (body : M A) (final : M unit) : M A :=
  let '(out, r) := body in
  match final with
  | (out', inl _) => (out ++ out', r)
  | (out', inr e) => (out ++ out', inr e)
  end.

(** The effects of [m] after the effects [out]. *)
Definition after {A} (out : list effect) (m : M A) : M A :=
  (out ++ fst m, snd m).

Declare Scope py_scope.
Delimit Scope py_scope with py.
Notation "x <- m ;; k" := (bind m (fun x => k))
  (at level 61, m at next level, right associativity) : py_scope.
Notation "m ;; k" := (bind m (fun _ => k))
  (at level 61, right associativity) : py_scope.
Local Open Scope py_scope.

(** ** The event handlers *)

(** [event[key]] *)
Definition getitem (event : dict) (key : pystr) : M json :=
  match lookup key event with
  | Some v => ret v
  | None => raise (KeyError key)
  end.

(** [text.strip()]: only a [str] has the method. *)
Definition strip_method (text : json) : M pystr :=
  match text with
  | JStr s => ret (strip s)
  | _ => raise (AttributeError text (str "strip"))
  end.

Definition on_session_created (event : dict) : M unit :=
  print (Session_created (JDict event)).

Definition on_speech_started (event : dict) : M unit :=
  print (Speech_started (JDict event)).

Definition on_speech_stopped (event : dict) : M unit :=
  print (Speech_stopped (JDict event)).

Definition on_transcription_completed (event : dict) : M unit :=
  print (Handling (JDict event)) ;;
  let text := JStr (str "") in
  let is_final := false in
  p <- (if contains (str "transcript") event
        then t <- getitem event (str "transcript") ;; ret (t, true)
        else ret (text, is_final)) ;;
  let '(text, is_final) := p in
  text <- (if contains (str "delta") event
           then getitem event (str "delta")
           else ret text) ;;
  stripped <- strip_method text ;;
  if str_truthy stripped then
    item_id <- getitem event (str "item_id") ;;
    print (Output (JDict [(str "transcript", text);
                          (str "is_final", JBool is_final);
                          (str "item_id", item_id)]))
  else ret tt.

Definition on_error (event : dict) : M unit :=
  print (Error (JDict event)).

(** ** The downlink loop: [handle_server_events] *)

(** The records printed after ["Output: "] in a trace. *)
Fixpoint outputs (tr : list effect) : list json :=
  match tr with
  | [] => []
  | Print (Output record) :: tr' => record :: outputs tr'
  | _ :: tr' => outputs tr'
  end.

(** The kinds that [handle_server_events] routes to a handler. *)
Definition recognized_kinds : list pystr :=
  [str "session.created";
   str "input_audio_buffer.speech_started";
   str "input_audio_buffer.speech_stopped";
   str "conversation.item.input_audio_transcription.delta";
   str "conversation.item.input_audio_transcription.completed";
   str "error"].

Definition recognized (kind : pystr) : bool :=
  existsb (str_eqb kind) recognized_kinds.

(** The two kinds routed to [on_transcription_completed]. *)
Definition transcription_kind (kind : pystr) : bool :=
  str_eqb kind (str "conversation.item.input_audio_transcription.delta")
  || str_eqb kind (str "conversation.item.input_audio_transcription.completed").

(** A code point that UTF-8 cannot encode: a surrogate. *)
Definition surrogate (c : N) : bool := ((55296 <=? c) && (c <=? 57343))%N.

(** Standard output encodes what is printed as UTF-8 with the error handler
    [strict]: a [str] can be written when it holds no surrogate. *)
Definition encodable (s : pystr) : bool :=
  forallb (fun c => negb (surrogate c)) s.

Definition UnicodeEncodeError : exn :=
  OtherException (str "UnicodeEncodeError") (str "surrogates not allowed").

(** [print(f"Received event: {event_type}")].  A [str] is formatted as it
    is, so that the print raises when standard output cannot encode it, and
    nothing is written.  Any other value is formatted through its [repr],
    which escapes the surrogates of the strings it holds, as [json.dumps]
    and the [repr] of the event do in the other prints. *)
Definition print_received_event (event_type : json) : M unit :=
  match event_type with
  | JStr s =>
      if encodable s then print (Received_event event_type)
      else raise UnicodeEncodeError
  | _ => print (Received_event event_type)
  end.

Section Downlink.

(** [json.loads], of the Python standard library: the decoded value, or
    the exception it raises. *)
Variable json_loads : pystr -> json + exn.

Definition loads (message : pystr) : M json :=
  match json_loads message with
  | inl v => ret v
  | inr e => raise e
  end.

(** The receiver of [event.get(...)]: only a [dict] has the method. *)
Definition get_receiver (event : json) : M dict :=
  match event with
  | JDict d => ret d
  | _ => raise (AttributeError event (str "get"))
  end.

(** [d.get(key, default)] *)
Definition get (d : dict) (key : pystr) (default : json) : json :=
  match lookup key d with
  | Some v => v
  | None => default
  end.

(** The statements inside the inner [try] of the loop. *)
Definition dispatch (message : pystr) : M unit :=
  event <- loads message ;;
  d <- get_receiver event ;;
  let event_type := get d (str "type") (JStr (str "")) in
  if eq_str event_type (str "session.created") then
    on_session_created d
  else if eq_str event_type (str "input_audio_buffer.speech_started") then
    on_speech_started d
  else if eq_str event_type (str "input_audio_buffer.speech_stopped") then
    on_speech_stopped d
  else if eq_str event_type
            (str "conversation.item.input_audio_transcription.delta") then
    on_transcription_completed d
  else if eq_str event_type
            (str "conversation.item.input_audio_transcription.completed") then
    on_transcription_completed d
  else if eq_str event_type (str "error") then
    on_error d
  else
    print_received_event event_type.

(** One iteration of [async for message in self.websocket]: the inner
    [try] with its two [except] clauses. *)
Definition on_message (message : pystr) : M unit :=
  try_except (dispatch message)
    (fun e =>
       if is_JSONDecodeError e then
         Some (print (Failed_to_decode_message e))
       else if is_Exception e then
         Some (print (Error_handling_server_event e))
       else None).

(** The [async for] loop over the messages the connection yields.  The
    iteration ends when the connection is closed normally
    ([ending = None]) or when receiving raises ([ending = Some e]). *)
Fixpoint receive_loop (messages : list pystr) (ending : option exn) : M unit :=
  match messages with
  | [] => match ending with
          | None => ret tt
          | Some e => raise e
          end
  | message :: rest =>
      on_message message ;; receive_loop rest ending
  end.

Definition handle_server_events
    (messages : list pystr) (ending : option exn) : M unit :=
  try_except (receive_loop messages ending)
    (fun e =>
       if is_ConnectionClosed e then
         Some (print Connection_to_OpenAI_closed)
       else if is_Exception e then
         Some (print (Error_in_handle_server_events e))
       else None).

End Downlink.

(** ** The frame encoder: [base64.b64encode] *)

Module Base64.

(** The standard alphabet (RFC 4648, table 1). *)
Definition table : list byte :=
  list_byte_of_string
    "ABCDEFGHIJKLMNOPQRSTUVWXYZabcdefghijklmnopqrstuvwxyz0123456789+/".

Definition pad : byte := "="%byte.

(** The character of a 6-bit value. *)
Definition enc (sextet : N) : byte := nth (N.to_nat sextet) table pad.

(** The 6-bit value of a character of the alphabet. *)
Fixpoint index (c : byte) (l : list byte) (i : N) : option N :=
  match l with
  | [] => None
  | x :: l' => if Byte.eqb x c then Some i else index c l' (N.succ i)
  end.

Definition dec (c : byte) : option N := index c table 0%N.

Definition byte_of (n : N) : byte :=
  match Byte.of_N n with
  | Some b => b
  | None => "000"%byte
  end.

(** Three bytes are written as four characters; one or two trailing
    bytes are written as two or three characters and padded with [=]. *)
Fixpoint b64encode (data : list byte) : list byte :=
  match data with
  | [] => []
  | [b1] =>
      let x := Byte.to_N b1 in
      [enc (N.shiftr x 2); enc (N.shiftl (N.land x 3) 4); pad; pad]
  | [b1; b2] =>
      let x := Byte.to_N b1 in
      let y := Byte.to_N b2 in
      [enc (N.shiftr x 2);
       enc (N.lor (N.shiftl (N.land x 3) 4) (N.shiftr y 4));
       enc (N.shiftl (N.land y 15) 2);
       pad]
  | b1 :: b2 :: b3 :: rest =>
      let x := Byte.to_N b1 in
      let y := Byte.to_N b2 in
      let z := Byte.to_N b3 in
      enc (N.shiftr x 2)
      :: enc (N.lor (N.shiftl (N.land x 3) 4) (N.shiftr y 4))
      :: enc (N.lor (N.shiftl (N.land y 15) 2) (N.shiftr z 6))
      :: enc (N.land z 63)
      :: b64encode rest
  end.

(** The bytes that two, three or four 6-bit values hold. *)
Definition first_byte (s1 s2 : N) : byte :=
  byte_of (N.lor (N.shiftl s1 2) (N.shiftr s2 4)).

Definition second_byte (s2 s3 : N) : byte :=
  byte_of (N.lor (N.shiftl (N.land s2 15) 4) (N.shiftr s3 2)).

Definition third_byte (s3 s4 : N) : byte :=
  byte_of (N.lor (N.shiftl (N.land s3 3) 6) s4).

(** Modelled from the spec: the decoder of the receiver ("decoding it on
    a simulated receiver"), which is not part of the repository.  It reads
    groups of four characters of the alphabet; padding is accepted in the
    last group only, and anything else is rejected. *)
Fixpoint b64decode (text : list byte) : option (list byte) :=
  match text with
  | [] => Some []
  | c1 :: c2 :: c3 :: c4 :: rest =>
      match dec c1, dec c2 with
      | Some s1, Some s2 =>
          if Byte.eqb c4 pad then
            match rest with
            | [] =>
                if Byte.eqb c3 pad then Some [first_byte s1 s2]
                else
                  match dec c3 with
                  | Some s3 => Some [first_byte s1 s2; second_byte s2 s3]
                  | None => None
                  end
            | _ :: _ => None
            end
          else
            match dec c3, dec c4, b64decode rest with
            | Some s3, Some s4, Some tail =>
                Some (first_byte s1 s2 :: second_byte s2 s3
                      :: third_byte s3 s4 :: tail)
            | _, _, _ => None
            end
      | _, _ => None
      end
  | _ => None
  end.

End Base64.

(** ** The uplink loop: [stream_audio] *)

(** [b.decode("utf-8")] on ASCII bytes, each of which is its own code
    point; a byte above 127 starts a multi-byte sequence, which base64 text
    never holds and which is left undecoded here. *)
Definition decode_utf8 (b : list byte) : M pystr :=
  if forallb (fun c => (Byte.to_N c <? 128)%N) b
  then ret (List.map Byte.to_N b)
  else raise (OtherException (str "UnicodeDecodeError") (str "utf-8")).

(** Lines 149 to 155: the command event of one captured buffer. *)
Definition audio_event (audio_data : list byte) : M json :=
  audio_base64 <- decode_utf8 (Base64.b64encode audio_data) ;;
  ret (JDict [(str "type", JStr (str "input_audio_buffer.append"));
              (str "audio", JStr audio_base64)]).

(** [await self.websocket.send(json.dumps(payload))]: the payload is
    recorded as the value given to [json.dumps]; [result] is the exception
    the transport raises, if any. *)
Definition websocket_send (result : option exn) (payload : json) : M unit :=
  match result with
  | None => perform (Websocket_send payload)
  | Some e => raise e
  end.

(** What the environment does during one iteration of the loop: the
    buffer read from the device (or the exception of the read), and the
    outcomes of the send and of the sleep. *)
Record iteration := {
  stream_read : list byte + exn;
  send_result : option exn;
  sleep_result : option exn
}.

(** The body of [while self.running]; [false] stands for [break]. *)
Definition stream_step (it : iteration) : M bool :=
  try_except
    (audio_data <- match stream_read it with
                   | inl data => ret data
                   | inr e => raise e
                   end ;;
     event <- audio_event audio_data ;;
     websocket_send (send_result it) event ;;
     match sleep_result it with
     | None => perform Sleep
     | Some e => raise e
     end ;;
     ret true)
    (fun e =>
       if is_Exception e
       then Some (print (Error_streaming_audio e) ;; ret false)
       else None).

(** The loop runs one iteration per entry of [iterations]: those at whose
    start [self.running] was true. *)
Fixpoint stream_loop (iterations : list iteration) : M unit :=
  match iterations with
  | [] => ret tt
  | it :: rest =>
      continue <- stream_step it ;;
      if continue then stream_loop rest else ret tt
  end.

(** [open_result]: the exception of [self.audio.open], if any; the stream
    is closed in [finally] only when it was opened. *)
Definition stream_audio
    (open_result : option exn) (iterations : list iteration) : M unit :=
  match open_result with
  | Some e => raise e
  | None =>
      perform Stream_open ;;
      try_finally
        (try_except (stream_loop iterations)
           (fun e =>
              if is_Exception e
              then Some (print (Error_in_audio_streaming e))
              else None))
        (perform Stream_stop ;; perform Stream_close)
  end.

(** The receiver of an audio command: the bytes its ["audio"] field holds. *)
Definition encode_ascii (s : pystr) : list byte := List.map Base64.byte_of s.

Definition receive_audio (payload : json) : option (list byte) :=
  match payload with
  | JDict d =>
      match lookup (str "audio") d with
      | Some (JStr text) => Base64.b64decode (encode_ascii text)
      | _ => None
      end
  | _ => None
  end.

(** ** The session: [send_session_config] and [connect_and_run] *)

Definition session_config : json :=
  JDict
    [(str "type", JStr (str "session.update"));
     (str "session",
      JDict
        [(str "modalities", JList [JStr (str "text")]);
         (str "instructions",
          JStr (str "You are a helpful assistant that transcribes audio."));
         (str "input_audio_format", JStr (str "pcm16"));
         (str "input_audio_transcription",
          JDict [(str "model", JStr (str "gpt-4o-transcribe"))]);
         (str "turn_detection",
          JDict
            [(str "type", JStr (str "server_vad"));
             (str "threshold", JFloat (Finite 5 (-1)));
             (str "prefix_padding_ms", JInt 300);
             (str "silence_duration_ms", JInt 500)])])].

Definition send_session_config (result : option exn) : M unit :=
  websocket_send result session_config.

(** What the environment does during one call of [connect_and_run].
    - [connect_result]: the exception raised on entering
      [async with websockets.connect(...)], if any;
    - [config_result]: the exception raised by the send of the session
      configuration, if any;
    - [tasks_before_stop], [tasks_after_stop]: the effects of the two tasks
      ([stream_audio] and [handle_server_events]) in the order in which the
      event loop ran them, before and after [self.running = False];
    - [input_result]: the exception raised while waiting for the executor
      that reads the stop trigger, if any;
    - [audio_task_result], [events_task_result]: the exception that
      [await audio_task] and [await events_task] raise, if any
      ([CancelledError] when the cancellation reached the task). *)
Record session := {
  connect_result : option exn;
  config_result : option exn;
  tasks_before_stop : list effect;
  input_result : option exn;
  tasks_after_stop : list effect;
  audio_task_result : option exn;
  events_task_result : option exn
}.

Definition perform_all (effects : list effect) : M unit := (effects, inl tt).

Definition await (result : option exn) : M unit :=
  match result with
  | None => ret tt
  | Some e => raise e
  end.

(** [try: await task except asyncio.CancelledError: pass] *)
Definition await_cancelled (result : option exn) : M unit :=
  try_except (await result)
    (fun e => match e with CancelledError => Some (ret tt) | _ => None end).

(** The body of [async with ... as websocket]. *)
Definition run_session (s : session) : M unit :=
  send_session_config (config_result s) ;;
  perform (Set_running true) ;;
  perform_all (tasks_before_stop s) ;;
  await (input_result s) ;;
  perform (Set_running false) ;;
  perform_all (tasks_after_stop s) ;;
  await_cancelled (audio_task_result s) ;;
  await_cancelled (events_task_result s).

(** [self.audio] is the [PyAudio] object made by [__init__]; it is always
    true, so [finally] always terminates it. *)
Definition connect_and_run (s : session) : M unit :=
  try_finally
    (try_except
       (match connect_result s with
        | Some e => raise e
        | None =>
            perform Websocket_open ;;
            try_finally (run_session s) (perform Websocket_close)
        end)
       (fun e =>
          if is_Exception e then Some (print (Connection_error e)) else None))
    (perform Audio_terminate).

(** ** A decoder of JSON text *)

(** [json.loads] belongs to the Python standard library; the properties of
    the downlink loop hold for any decoder.  This module reads JSON text the
    way [json.decoder] does, and instantiates the decoder on concrete wire
    messages. *)
Module Json.

Local Open Scope N_scope.

Definition result (A : Type) : Type := (A + string)%type.

Definition whitespace (c : N) : bool :=
  (c =? 32) || (c =? 9) || (c =? 10) || (c =? 13).

Fixpoint skip (s : pystr) : pystr :=
  match s with
  | c :: s' => if whitespace c then skip s' else s
  | [] => []
  end.

(** [s.startswith(literal)], with the rest of [s]. *)
Fixpoint startswith (literal s : pystr) : option pystr :=
  match literal, s with
  | [], _ => Some s
  | x :: literal', c :: s' =>
      if x =? c then startswith literal' s' else None
  | _ :: _, [] => None
  end.

Definition digit (c : N) : bool := (48 <=? c) && (c <=? 57).

Fixpoint digits (s : pystr) : pystr * pystr :=
  match s with
  | c :: s' =>
      if digit c then let '(ds, rest) := digits s' in (c :: ds, rest)
      else ([], s)
  | [] => ([], [])
  end.

Definition decimal (ds : pystr) : Z :=
  fold_left (fun acc d => (acc * 10 + Z.of_N (d - 48))%Z) ds 0%Z.

Definition signed (negative : bool) (z : Z) : Z :=
  if negative then (- z)%Z else z.

(** The number at the start of [s]: an optional minus sign, an integer
    part without leading zeros, then an optional fraction (a dot and
    digits) and an optional exponent (e or E, an optional sign, digits);
    an [int] when it has neither fraction nor exponent. *)
Definition number (s : pystr) : option (json * pystr) :=
  let '(negative, s1) :=
    match s with
    | c :: r => if c =? 45 then (true, r) else (false, s)
    | [] => (false, s)
    end in
  match digits s1 with
  | ([], _) => None
  | (d :: ds, s2) =>
      let '(integer, rest) :=
        if d =? 48 then ([d], ds ++ s2) else (d :: ds, s2) in
      let '(frac, rest1) :=
        match rest with
        | c :: r =>
            if c =? 46 then
              match digits r with
              | ([], _) => ([], rest)
              | (fd, r') => (fd, r')
              end
            else ([], rest)
        | [] => ([], rest)
        end in
      let '(exponent, rest2) :=
        match rest1 with
        | c :: r =>
            if (c =? 101) || (c =? 69) then
              let '(eneg, r1) :=
                match r with
                | sign :: r' =>
                    if sign =? 45 then (true, r')
                    else if sign =? 43 then (false, r')
                    else (false, r)
                | [] => (false, r)
                end in
              match digits r1 with
              | ([], _) => (None, rest1)
              | (ed, r2) => (Some (signed eneg (decimal ed)), r2)
              end
            else (None, rest1)
        | [] => (None, rest1)
        end in
      match frac, exponent with
      | [], None => Some (JInt (signed negative (decimal integer)), rest2)
      | _, _ =>
          let e := match exponent with Some e => e | None => 0%Z end in
          Some (JFloat (Finite (signed negative (decimal (integer ++ frac)))
                               (e - Z.of_nat (List.length frac))),
                rest2)
      end
  end.

Definition hex (c : N) : option N :=
  if digit c then Some (c - 48)
  else if (97 <=? c) && (c <=? 102) then Some (c - 87)
  else if (65 <=? c) && (c <=? 70) then Some (c - 55)
  else None.

Definition hex4 (h1 h2 h3 h4 : N) : option N :=
  match hex h1, hex h2, hex h3, hex h4 with
  | Some a, Some b, Some c, Some d =>
      Some (((a * 16 + b) * 16 + c) * 16 + d)
  | _, _, _, _ => None
  end.

Definition escape (c : N) : option N :=
  if c =? 34 then Some 34
  else if c =? 92 then Some 92
  else if c =? 47 then Some 47
  else if c =? 98 then Some 8
  else if c =? 102 then Some 12
  else if c =? 110 then Some 10
  else if c =? 114 then Some 13
  else if c =? 116 then Some 9
  else None.

Definition high_surrogate (c : N) : bool := (55296 <=? c) && (c <=? 56319).
Definition low_surrogate (c : N) : bool := (56320 <=? c) && (c <=? 57343).
Definition join_surrogates (hi lo : N) : N :=
  65536 + N.lor (N.shiftl (hi - 55296) 10) (lo - 56320).

(** The string whose opening quote has been read; [acc] holds its
    characters so far, last first. *)
Fixpoint scanstring (s acc : pystr) : result (pystr * pystr) :=
  match s with
  | [] => inr "Unterminated string starting at"%string
  | c :: rest =>
      if c =? 34 then inl (rev acc, rest)
      else if c =? 92 then
        match rest with
        | [] => inr "Unterminated string starting at"%string
        | e :: rest1 =>
            if e =? 117 then
              match rest1 with
              | h1 :: h2 :: h3 :: h4 :: ((_ :: _) as rest5) =>
                  match hex4 h1 h2 h3 h4 with
                  | None => inr "Invalid \uXXXX escape"%string
                  | Some uni =>
                      match rest5 with
                      | b :: u :: l1 :: l2 :: l3 :: l4 :: ((_ :: _) as rest11) =>
                          if high_surrogate uni && (b =? 92) && (u =? 117) then
                            match hex4 l1 l2 l3 l4 with
                            | None => inr "Invalid \uXXXX escape"%string
                            | Some uni2 =>
                                if low_surrogate uni2
                                then scanstring rest11
                                       (join_surrogates uni uni2 :: acc)
                                else scanstring rest5 (uni :: acc)
                            end
                          else scanstring rest5 (uni :: acc)
                      | _ => scanstring rest5 (uni :: acc)
                      end
                  end
              | _ => inr "Invalid \uXXXX escape"%string
              end
            else
              match escape e with
              | Some x => scanstring rest1 (x :: acc)
              | None => inr "Invalid \escape"%string
              end
        end
      else if c <=? 31 then inr "Invalid control character at"%string
      else scanstring rest (c :: acc)
  end.

(** [dict(pairs)]: a later pair of the same key replaces the value and
    keeps the place of the first. *)
Fixpoint setitem (d : dict) (key : pystr) (value : json) : dict :=
  match d with
  | [] => [(key, value)]
  | (k, v) :: d' =>
      if str_eqb k key then (k, value) :: d'
      else (k, v) :: setitem d' key value
  end.

Definition literal (name : string) (value : json) (s : pystr)
  : option (json * pystr) :=
  match startswith (str name) s with
  | Some rest => Some (value, rest)
  | None => None
  end.

Definition first_of {A} (a b : option A) : option A :=
  match a with Some _ => a | None => b end.

(** The value at the start of [s] that is neither a string, an object
    nor an array. *)
Definition atom (s : pystr) : result (json * pystr) :=
  match
    first_of (literal "null" JNull s)
      (first_of (literal "true" (JBool true) s)
         (first_of (literal "false" (JBool false) s)
            (first_of (number s)
               (first_of (literal "NaN" (JFloat NaN) s)
                  (first_of (literal "Infinity" (JFloat (Infinity false)) s)
                     (literal "-Infinity" (JFloat (Infinity true)) s))))))
  with
  | Some r => inl r
  | None => inr "Expecting value"%string
  end.

Definition property_name : string :=
  "Expecting property name enclosed in double quotes".

(** [scan_once], [JSONObject] after the quote of a key, [JSONArray]
    before a value.  [fuel] bounds the depth of the calls. *)
Fixpoint scan_once (fuel : nat) (s : pystr) : result (json * pystr) :=
  match fuel with
  | O => inr "maximum recursion depth exceeded"%string
  | S fuel' =>
      match s with
      | [] => inr "Expecting value"%string
      | c :: rest =>
          if c =? 34 then
            match scanstring rest [] with
            | inl (text, rest') => inl (JStr text, rest')
            | inr msg => inr msg
            end
          else if c =? 123 then
            match skip rest with
            | [] => inr property_name
            | c' :: rest' =>
                if c' =? 125 then inl (JDict [], rest')
                else if c' =? 34 then
                  match members fuel' rest' [] with
                  | inl (d, rest'') => inl (JDict d, rest'')
                  | inr msg => inr msg
                  end
                else inr property_name
            end
          else if c =? 91 then
            match skip rest with
            | [] => inr "Expecting value"%string
            | c' :: rest' =>
                if c' =? 93 then inl (JList [], rest')
                else
                  match elements fuel' (c' :: rest') [] with
                  | inl (l, rest'') => inl (JList l, rest'')
                  | inr msg => inr msg
                  end
            end
          else atom s
      end
  end

with members (fuel : nat) (s : pystr) (d : dict) : result (dict * pystr) :=
  match fuel with
  | O => inr "maximum recursion depth exceeded"%string
  | S fuel' =>
      match scanstring s [] with
      | inr msg => inr msg
      | inl (key, s1) =>
          match skip s1 with
          | [] => inr "Expecting ':' delimiter"%string
          | c :: s2 =>
              if c =? 58 then
                match scan_once fuel' (skip s2) with
                | inr msg => inr msg
                | inl (value, s3) =>
                    let d' := setitem d key value in
                    match skip s3 with
                    | [] => inr "Expecting ',' delimiter"%string
                    | c' :: s4 =>
                        if c' =? 125 then inl (d', s4)
                        else if c' =? 44 then
                          match skip s4 with
                          | [] => inr property_name
                          | q :: s5 =>
                              if q =? 34 then members fuel' s5 d'
                              else inr property_name
                          end
                        else inr "Expecting ',' delimiter"%string
                    end
                end
              else inr "Expecting ':' delimiter"%string
          end
      end
  end

with elements (fuel : nat) (s : pystr) (l : list json)
  : result (list json * pystr) :=
  match fuel with
  | O => inr "maximum recursion depth exceeded"%string
  | S fuel' =>
      match scan_once fuel' s with
      | inr msg => inr msg
      | inl (value, s1) =>
          match skip s1 with
          | [] => inr "Expecting ',' delimiter"%string
          | c :: s2 =>
              if c =? 93 then inl (l ++ [value], s2)
              else if c =? 44 then elements fuel' (skip s2) (l ++ [value])
              else inr "Expecting ',' delimiter"%string
          end
      end
  end.

(** [json.loads(s)] for a [str]: one value, between optional whitespace. *)
Definition loads (s : pystr) : json + exn :=
  match s with
  | 65279 :: _ =>
      inr (JSONDecodeError
             (str "Unexpected UTF-8 BOM (decode using utf-8-sig)"))
  | _ =>
      match scan_once (S (List.length s)) (skip s) with
      | inr msg => inr (JSONDecodeError (str msg))
      | inl (value, rest) =>
          match skip rest with
          | [] => inl value
          | _ :: _ => inr (JSONDecodeError (str "Extra data"))
          end
      end
  end.

End Json.

(** The numbers below [n], for checks by enumeration. *)
Fixpoint below (n : nat) : list N :=
  match n with
  | O => []
  | S k => N.of_nat k :: below k
  end.

(** ** Records, fragments and items *)

(** The text of a wire message, written with an apostrophe for each double
    quote of the JSON text. *)
Definition wire (s : string) : pystr :=
  List.map (fun c => if (c =? 39)%N then 34%N else c) (str s).

(** The record printed by [on_transcription_completed]. *)
Definition record (text : json) (is_final : bool) (item_id : json) : json :=
  JDict [(str "transcript", text);
         (str "is_final", JBool is_final);
         (str "item_id", item_id)].

(** The kind and the text field of a fragment: partial or final. *)
Definition fragment_kind (final : bool) : pystr :=
  if final
  then str "conversation.item.input_audio_transcription.completed"
  else str "conversation.item.input_audio_transcription.delta".

Definition text_field (final : bool) : pystr :=
  if final then str "transcript" else str "delta".

(** The value that [on_transcription_completed] holds in [text] when it
    reaches [text.strip()]: the [delta] field if the event has one, else the
    [transcript] field if it has one, else the empty string. *)
Definition selected_text (event : dict) : json :=
  match lookup (str "delta") event with
  | Some v => v
  | None =>
      match lookup (str "transcript") event with
      | Some v => v
      | None => JStr (str "")
      end
  end.

(** The string [text] is the text of the event: its [delta] field, or its
    [transcript] field when it has no [delta] field. *)
Definition fragment_text (event : dict) (text : pystr) : Prop :=
  lookup (str "delta") event = Some (JStr text)
  \/ (lookup (str "delta") event = None
      /\ lookup (str "transcript") event = Some (JStr text)).

(** The record has [is_final = true]. *)
Definition is_final (r : json) : bool :=
  match r with
  | JDict f =>
      match lookup (str "is_final") f with
      | Some (JBool true) => true
      | _ => false
      end
  | _ => false
  end.

(** The record is for the item [item_id]. *)
Definition of_item (item_id : pystr) (r : json) : bool :=
  match r with
  | JDict f =>
      match lookup (str "item_id") f with
      | Some v => eq_str v item_id
      | None => false
      end
  | _ => false
  end.

Definition final_records (item_id : pystr) (tr : list effect) : list json :=
  filter (fun r => is_final r && of_item item_id r) (outputs tr).

Definition item_records (item_id : pystr) (tr : list effect) : list json :=
  filter (of_item item_id) (outputs tr).

(** A transcription-delta event for [item_id]: partial text and item id. *)
Definition delta_event (item_id : pystr) (d : dict) : Prop :=
  lookup (str "type") d = Some (JStr (fragment_kind false))
  /\ lookup (str "transcript") d = None
  /\ lookup (str "item_id") d = Some (JStr item_id).

(** A transcription-completed event for [item_id]: final text and item id. *)
Definition completed_event (item_id : pystr) (d : dict) : Prop :=
  lookup (str "type") d = Some (JStr (fragment_kind true))
  /\ lookup (str "delta") d = None
  /\ lookup (str "item_id") d = Some (JStr item_id).

(** ** Sentences of the specification that the program does not satisfy *)

(** "An event carrying both a [delta] field and a final [transcript] field
    treats the final field as authoritative": the record printed for
    [message] has the text of the [transcript] field and [is_final = true]. *)
Definition final_field_is_authoritative
    (json_loads : pystr -> json + exn) (message : pystr) : Prop :=
  forall d delta transcript,
    json_loads message = inl (JDict d) ->
    lookup (str "delta") d = Some (JStr delta) -> delta <> [] ->
    lookup (str "transcript") d = Some (JStr transcript) -> transcript <> [] ->
    exists item_id,
      outputs (fst (on_message json_loads message))
      = [record (JStr transcript) true item_id].

(** "For all transcript fragments where trimmed text is empty, no output
    record is emitted", the text of a delta event being its [delta] field
    and the text of a completed event its [transcript] field. *)
Definition blank_text_is_silent
    (json_loads : pystr -> json + exn) (message : pystr) : Prop :=
  forall d final text,
    json_loads message = inl (JDict d) ->
    lookup (str "type") d = Some (JStr (fragment_kind final)) ->
    lookup (text_field final) d = Some (JStr text) ->
    strip text = [] ->
    outputs (fst (on_message json_loads message)) = [].

(** "The dispatcher never raises on an unrecognized kind": the kind is
    printed and nothing is raised. *)
Definition unknown_kind_is_logged
    (json_loads : pystr -> json + exn) (message : pystr) : Prop :=
  forall d kind,
    json_loads message = inl (JDict d) ->
    lookup (str "type") d = Some (JStr kind) ->
    recognized kind = false ->
    dispatch json_loads message
    = ([Print (Received_event (JStr kind))], inl tt).

(** The messages decode to one or more delta events for [item_id], followed
    by a completed event for it. *)
Definition deltas_then_completed
    (json_loads : pystr -> json + exn)
    (item_id : pystr) (deltas : list pystr) (completed : pystr) : Prop :=
  deltas <> []
  /\ Forall (fun m => exists d,
               json_loads m = inl (JDict d) /\ delta_event item_id d) deltas
  /\ exists d, json_loads completed = inl (JDict d)
               /\ completed_event item_id d.

(** "Exactly one [is_final = true] output record is emitted and the item's
    state is then discarded (no further output for that id)": one final
    record for the item, and no record for it from the messages [later]. *)
Definition finalized_and_dropped
    (json_loads : pystr -> json + exn)
    (item_id : pystr) (deltas : list pystr) (completed : pystr)
    (later : list pystr) : Prop :=
  let before :=
    fst (handle_server_events json_loads (deltas ++ [completed]) None) in
  let all :=
    fst (handle_server_events json_loads (deltas ++ completed :: later) None) in
  List.length (final_records item_id before) = 1%nat
  /\ item_records item_id all = item_records item_id before.

(** "Propagated to the caller, triggers full teardown": [connect_and_run]
    ends by raising [e], after terminating the audio object. *)
Definition failure_is_propagated (s : session) (e : exn) : Prop :=
  snd (connect_and_run s) = inr e
  /\ In Audio_terminate (fst (connect_and_run s)).

(** ** Concrete messages and sessions *)

(** Scenario A of the specification. *)
Definition scenario_A : pystr :=
  wire "{'type':'conversation.item.input_audio_transcription.delta','delta':'hel','item_id':'i1'}".

Definition event_A : dict :=
  [(str "type", JStr (fragment_kind false));
   (str "delta", JStr (str "hel"));
   (str "item_id", JStr (str "i1"))].

(** Scenario B. *)
Definition scenario_B : pystr :=
  wire "{'type':'conversation.item.input_audio_transcription.completed','transcript':'hello','item_id':'i1'}".

Definition event_B : dict :=
  [(str "type", JStr (fragment_kind true));
   (str "transcript", JStr (str "hello"));
   (str "item_id", JStr (str "i1"))].

(** Scenario C. *)
Definition scenario_C : pystr :=
  wire "{'type':'conversation.item.input_audio_transcription.delta','delta':'   ','item_id':'i2'}".

Definition event_C : dict :=
  [(str "type", JStr (fragment_kind false));
   (str "delta", JStr (str "   "));
   (str "item_id", JStr (str "i2"))].

(** A completed event that also carries a [delta] field. *)
Definition both_fields : pystr :=
  wire "{'type':'conversation.item.input_audio_transcription.completed','transcript':'hello','delta':'hel','item_id':'i1'}".

Definition event_both : dict :=
  [(str "type", JStr (fragment_kind true));
   (str "transcript", JStr (str "hello"));
   (str "delta", JStr (str "hel"));
   (str "item_id", JStr (str "i1"))].

(** A delta event for the item of scenarios A and B, received after B. *)
Definition late_delta : pystr :=
  wire "{'type':'conversation.item.input_audio_transcription.delta','delta':'lo','item_id':'i1'}".

(** A delta event whose text has whitespace around it. *)
Definition padded_delta : pystr :=
  wire "{'type':'conversation.item.input_audio_transcription.delta','delta':' hi ','item_id':'i3'}".

Definition event_padded : dict :=
  [(str "type", JStr (fragment_kind false));
   (str "delta", JStr (str " hi "));
   (str "item_id", JStr (str "i3"))].

(** A delta event without [item_id]. *)
Definition no_item_id : pystr :=
  wire "{'type':'conversation.item.input_audio_transcription.delta','delta':'hel'}".

Definition event_no_item_id : dict :=
  [(str "type", JStr (fragment_kind false));
   (str "delta", JStr (str "hel"))].

(** A completed event whose transcript is blank and which also carries a
    [delta] field. *)
Definition blank_final_with_delta : pystr :=
  wire "{'type':'conversation.item.input_audio_transcription.completed','transcript':'   ','delta':'hel','item_id':'i1'}".

Definition event_blank_final_with_delta : dict :=
  [(str "type", JStr (fragment_kind true));
   (str "transcript", JStr (str "   "));
   (str "delta", JStr (str "hel"));
   (str "item_id", JStr (str "i1"))].

(** An event whose kind is a lone surrogate, written as JSON escapes it. *)
Definition surrogate_kind : pystr := wire "{'type':'\ud800'}".

Definition event_surrogate_kind : dict :=
  [(str "type", JStr [55296%N])].

(** An event of a kind that the loop does not route. *)
Definition unknown_kind : pystr := wire "{'type':'response.done'}".

Definition event_unknown : dict :=
  [(str "type", JStr (str "response.done"))].

(** Scenario E: a message that is not JSON text. *)
Definition malformed : pystr := wire "{'type': 'error'".

(** A session whose connection cannot be opened, and one whose
    configuration cannot be sent. *)
Definition refused : exn :=
  OtherException (str "ConnectionRefusedError") (str "Connect call failed").

Definition cannot_connect : session :=
  {| connect_result := Some refused;
     config_result := None;
     tasks_before_stop := [];
     input_result := None;
     tasks_after_stop := [];
     audio_task_result := None;
     events_task_result := None |}.

Definition cannot_configure : session :=
  {| connect_result := None;
     config_result := Some (ConnectionClosed false);
     tasks_before_stop := [];
     input_result := None;
     tasks_after_stop := [];
     audio_task_result := None;
     events_task_result := None |}.

(** ** The rest of the program: ends of the loops, [__init__] and [main] *)

(** What [handle_server_events] prints when the iteration over the
    connection ends, and how it ends itself: the two outer [except]
    clauses. *)
Definition closing_lines (ending : option exn) : list effect :=
  match ending with
  | None => []
  | Some e =>
      if is_ConnectionClosed e then [Print Connection_to_OpenAI_closed]
      else if is_Exception e then [Print (Error_in_handle_server_events e)]
      else []
  end.

Definition loop_result (ending : option exn) : unit + exn :=
  match ending with
  | None => inl tt
  | Some e => if is_Exception e then inl tt else inr e
  end.

(** The line that a handler other than [on_transcription_completed] prints
    for an event of kind [kind]. *)
Definition simple_line (kind : pystr) (event : json) : option line :=
  if str_eqb kind (str "session.created") then Some (Session_created event)
  else if str_eqb kind (str "input_audio_buffer.speech_started")
  then Some (Speech_started event)
  else if str_eqb kind (str "input_audio_buffer.speech_stopped")
  then Some (Speech_stopped event)
  else if str_eqb kind (str "error") then Some (Error event)
  else None.

(** The command that [stream_audio] sends for a buffer. *)
Definition audio_frame (audio_data : list byte) : json :=
  JDict [(str "type", JStr (str "input_audio_buffer.append"));
         (str "audio",
          JStr (List.map Byte.to_N (Base64.b64encode audio_data)))].

(** An iteration of the uplink loop in which nothing fails, and the effects
    of a run of such iterations. *)
Definition good_iteration (audio_data : list byte) : iteration :=
  {| stream_read := inl audio_data;
     send_result := None;
     sleep_result := None |}.

Definition frames (buffers : list (list byte)) : list effect :=
  flat_map (fun b => [Websocket_send (audio_frame b); Sleep]) buffers.

(** The iteration raises [e] before anything is sent: the read fails, or
    the send does. *)
Definition fails_before_send (it : iteration) (e : exn) : Prop :=
  stream_read it = inr e
  \/ (exists audio_data,
        stream_read it = inl audio_data /\ send_result it = Some e).

(** What [await task] gives for a task that has finished without error or
    that the cancellation has reached. *)
Definition finished_or_cancelled (result : option exn) : Prop :=
  result = None \/ result = Some CancelledError.

(** The effects of a session up to the stop trigger and from it to the
    end of the tasks. *)
Definition session_effects (s : session) : list effect :=
  [Websocket_open; Websocket_send session_config; Set_running true]
  ++ tasks_before_stop s ++ [Set_running false] ++ tasks_after_stop s.

(** [OpenAIRealtimeTranscriber.__init__]: [api_key] is the value of
    [os.getenv("API_KEY")], [pyaudio_result] the exception raised by
    [pyaudio.PyAudio()], if any.  An empty key is as false as a missing one. *)
Definition init (api_key : option pystr) (pyaudio_result : option exn)
  : M unit :=
  match api_key with
  | Some (_ :: _) =>
      match pyaudio_result with
      | None => ret tt
      | Some e => raise e
      end
  | _ =>
      raise (OtherException (str "ValueError")
               (str "API_KEY environment variable is required"))
  end.

(** The effects of [main]: those of the session, and the line that [main]
    prints itself, ["Error: ..."] with the exception it caught. *)
Inductive main_effect :=
| Of_session (f : effect)
| Print_Error (e : exn).

Definition main (api_key : option pystr) (pyaudio_result : option exn)
    (s : session) : list main_effect * (unit + exn) :=
  match init api_key pyaudio_result ;; connect_and_run s with
  | (out, inl _) => (List.map Of_session out, inl tt)
  | (out, inr e) =>
      if is_Exception e
      then (List.map Of_session out ++ [Print_Error e], inl tt)
      else (List.map Of_session out, inr e)
  end.

(** ** More concrete messages and sessions *)

(** JSON text that is not an object. *)
Definition array_message : pystr := wire "[1, 2]".

(** A delta event whose text is a number. *)
Definition number_delta : pystr :=
  wire "{'type':'conversation.item.input_audio_transcription.delta','delta':5,'item_id':'i4'}".

Definition event_number_delta : dict :=
  [(str "type", JStr (fragment_kind false));
   (str "delta", JInt 5);
   (str "item_id", JStr (str "i4"))].

(** An event without [type]. *)
Definition no_type : pystr := wire "{'item_id':'i5'}".

Definition event_no_type : dict := [(str "item_id", JStr (str "i5"))].

(** An [error] event. *)
Definition error_message : pystr :=
  wire "{'type':'error','error':{'message':'bad request'}}".

Definition event_error : dict :=
  [(str "type", JStr (str "error"));
   (str "error", JDict [(str "message", JStr (str "bad request"))])].

(** A delta event with no text field and no item id. *)
Definition bare_delta : pystr :=
  wire "{'type':'conversation.item.input_audio_transcription.delta'}".

Definition event_bare_delta : dict :=
  [(str "type", JStr (fragment_kind false))].

(** A delta-kind event that carries only a [transcript] field. *)
Definition delta_with_transcript : pystr :=
  wire "{'type':'conversation.item.input_audio_transcription.delta','transcript':'done','item_id':'i6'}".

Definition event_delta_with_transcript : dict :=
  [(str "type", JStr (fragment_kind false));
   (str "transcript", JStr (str "done"));
   (str "item_id", JStr (str "i6"))].

(** Two buffers of audio. *)
Definition buffer_1 : list byte := list_byte_of_string "abcd".
Definition buffer_2 : list byte := list_byte_of_string "efghi".

Definition broken_pipe : exn :=
  OtherException (str "BrokenPipeError") (str "Broken pipe").

Definition failing_send : iteration :=
  {| stream_read := inl buffer_2;
     send_result := Some broken_pipe;
     sleep_result := None |}.

Definition cancelled_sleep : iteration :=
  {| stream_read := inl buffer_2;
     send_result := None;
     sleep_result := Some CancelledError |}.

(** A session that runs until the stop trigger, with both tasks
    cancelled, and one whose audio task had failed. *)
Definition clean_session : session :=
  {| connect_result := None;
     config_result := None;
     tasks_before_stop := [Stream_open; Websocket_send (audio_frame buffer_1)];
     input_result := None;
     tasks_after_stop := [Stream_stop; Stream_close];
     audio_task_result := Some CancelledError;
     events_task_result := Some CancelledError |}.

(** A session whose wait for the stop trigger is cancelled. *)
Definition cancelled_session : session :=
  {| connect_result := None;
     config_result := None;
     tasks_before_stop := [Stream_open];
     input_result := Some CancelledError;
     tasks_after_stop := [];
     audio_task_result := None;
     events_task_result := None |}.

Definition no_microphone : exn :=
  OtherException (str "OSError") (str "No Default Input Device Available").

Definition deaf_session : session :=
  {| connect_result := None;
     config_result := None;
     tasks_before_stop := [];
     input_result := None;
     tasks_after_stop := [];
     audio_task_result := Some no_microphone;
     events_task_result := Some CancelledError |}.

(** * Properties *)

(** ** Strings and the monad *)

Lemma str_eqb_refl (a : pystr) : str_eqb a a = true.
Proof.
  induction a as [|x a IH]; simpl; [reflexivity|].
  now rewrite N.eqb_refl, IH.
Qed.

Lemma str_eqb_eq (a b : pystr) : str_eqb a b = true <-> a = b.
Proof.
  split.
  - revert b; induction a as [|x a IH]; intros [|y b] H; simpl in H;
      try discriminate; [reflexivity|].
    apply andb_true_iff in H as [Hx Hab].
    apply N.eqb_eq in Hx. apply IH in Hab. now subst.
  - intros ->. apply str_eqb_refl.
Qed.

Lemma str_truthy_true (s : pystr) : s <> [] -> str_truthy s = true.
Proof. destruct s; [congruence | reflexivity]. Qed.

Lemma bind_ret {A B} (a : A) (k : A -> M B) : bind (ret a) k = k a.
Proof. unfold bind, ret. now destruct (k a). Qed.

Lemma after_nil {A} (m : M A) : after [] m = m.
Proof. now destruct m. Qed.

Lemma fst_after_nil {A} (out : list effect) (r : A + exn) :
  fst (after out ([], r)) = out.
Proof. unfold after; simpl. apply app_nil_r. Qed.

Lemma after_app {A} (out1 out2 : list effect) (m : M A) :
  after (out1 ++ out2) m = after out1 (after out2 m).
Proof. unfold after; simpl. now rewrite app_assoc. Qed.

Lemma bind_after {A B} (out : list effect) (a : A) (k : A -> M B) :
  bind (out, inl a) k = after out (k a).
Proof. unfold bind, after. now destruct (k a). Qed.

Lemma try_except_after {A} (out : list effect) (m : M A) h :
  try_except (after out m) h = after out (try_except m h).
Proof.
  destruct m as [out' [a|e]]; unfold after, try_except; simpl; auto.
  destruct (h e) as [[out'' r]|]; simpl; auto.
  now rewrite app_assoc.
Qed.

Lemma outputs_app (tr1 tr2 : list effect) :
  outputs (tr1 ++ tr2) = outputs tr1 ++ outputs tr2.
Proof.
  induction tr1 as [|f tr1 IH]; [reflexivity|].
  destruct f as [l| | | | | | | | |]; try destruct l; simpl; auto.
  now rewrite IH.
Qed.

Lemma final_records_app item_id tr1 tr2 :
  final_records item_id (tr1 ++ tr2)
  = final_records item_id tr1 ++ final_records item_id tr2.
Proof. unfold final_records. now rewrite outputs_app, filter_app. Qed.

(** ** The handler and one iteration of the loop *)

Section DownlinkFacts.

Variable json_loads : pystr -> json + exn.

(** The loop goes on after an iteration that raised nothing. *)
Lemma handle_server_events_step message out rest ending :
  on_message json_loads message = (out, inl tt) ->
  handle_server_events json_loads (message :: rest) ending
  = after out (handle_server_events json_loads rest ending).
Proof.
  intros H. unfold handle_server_events. simpl receive_loop.
  rewrite H, bind_after. apply try_except_after.
Qed.

(** The trace of the loop over messages none of which makes the iteration
    raise: the traces of the iterations, one after the other. *)
Lemma handle_server_events_trace messages rest ending :
  (forall m, In m messages -> snd (on_message json_loads m) = inl tt) ->
  handle_server_events json_loads (messages ++ rest) ending
  = after (flat_map (fun m => fst (on_message json_loads m)) messages)
      (handle_server_events json_loads rest ending).
Proof.
  induction messages as [|m ms IH]; intros Hall; simpl.
  - now rewrite after_nil.
  - destruct (on_message json_loads m) as [out r] eqn:E.
    pose proof (Hall m (or_introl eq_refl)) as Hm.
    rewrite E in Hm; simpl in Hm; subst r.
    rewrite (handle_server_events_step _ _ _ _ E), after_app.
    f_equal. apply IH. intros m' Hin. apply Hall. now right.
Qed.

Lemma handle_server_events_nil :
  handle_server_events json_loads [] None = ([], inl tt).
Proof. reflexivity. Qed.

(** An event of one of the two transcription kinds reaches
    [on_transcription_completed]. *)
Lemma dispatch_transcription message d kind :
  json_loads message = inl (JDict d) ->
  lookup (str "type") d = Some (JStr kind) ->
  transcription_kind kind = true ->
  dispatch json_loads message = on_transcription_completed d.
Proof.
  intros Hl Ht Hk. unfold dispatch, loads. rewrite Hl, bind_ret.
  cbn [get_receiver]. rewrite bind_ret. unfold get. rewrite Ht.
  apply orb_true_iff in Hk as [Hk|Hk]; apply str_eqb_eq in Hk; subst kind;
    reflexivity.
Qed.

(** The handler, one case per outcome. *)
Lemma on_transcription_completed_eq d :
  on_transcription_completed d
  = after [Print (Handling (JDict d))]
      match selected_text d with
      | JStr s =>
          if str_truthy (strip s) then
            match lookup (str "item_id") d with
            | Some item_id =>
                ([Print (Output (record (JStr s)
                                   (contains (str "transcript") d) item_id))],
                 inl tt)
            | None => ([], inr (KeyError (str "item_id")))
            end
          else ([], inl tt)
      | text => ([], inr (AttributeError text (str "strip")))
      end.
Proof.
  unfold on_transcription_completed, selected_text, contains, getitem, record.
  destruct (lookup (str "transcript") d) as [t|];
    destruct (lookup (str "delta") d) as [dl|];
    try destruct dl; try destruct t;
    cbv [bind ret raise print perform after strip_method fst snd app];
    try (destruct (str_truthy _));
    try (destruct (lookup (str "item_id") d));
    reflexivity.
Qed.

Lemma selected_text_fragment d text :
  fragment_text d text -> selected_text d = JStr text.
Proof. unfold selected_text. now intros [->|[-> ->]]. Qed.

Lemma on_message_returns message out :
  dispatch json_loads message = (out, inl tt) ->
  on_message json_loads message = (out, inl tt).
Proof. unfold on_message. now intros ->. Qed.

Lemma on_message_catches message out e :
  dispatch json_loads message = (out, inr e) ->
  is_JSONDecodeError e = false ->
  is_Exception e = true ->
  on_message json_loads message
  = (out ++ [Print (Error_handling_server_event e)], inl tt).
Proof.
  intros H Hj He. unfold on_message. rewrite H.
  cbv [try_except]. now rewrite Hj, He.
Qed.

(** What one iteration prints for a transcription event whose text is a
    string. *)
Lemma on_message_fragment message d kind text :
  json_loads message = inl (JDict d) ->
  lookup (str "type") d = Some (JStr kind) ->
  transcription_kind kind = true ->
  fragment_text d text ->
  on_message json_loads message
  = if str_truthy (strip text) then
      match lookup (str "item_id") d with
      | Some item_id =>
          ([Print (Handling (JDict d));
            Print (Output (record (JStr text)
                             (contains (str "transcript") d) item_id))],
           inl tt)
      | None =>
          ([Print (Handling (JDict d));
            Print (Error_handling_server_event (KeyError (str "item_id")))],
           inl tt)
      end
    else ([Print (Handling (JDict d))], inl tt).
Proof.
  intros Hl Ht Hk Hf.
  pose proof (dispatch_transcription _ _ _ Hl Ht Hk) as Hd.
  rewrite on_transcription_completed_eq, (selected_text_fragment _ _ Hf) in Hd.
  destruct (str_truthy (strip text)).
  - destruct (lookup (str "item_id") d).
    + now apply on_message_returns.
    + now rewrite (on_message_catches _ _ _ Hd).
  - now apply on_message_returns.
Qed.

(** An event of a transcription kind never stops the loop. *)
Lemma on_message_transcription_returns message d kind :
  json_loads message = inl (JDict d) ->
  lookup (str "type") d = Some (JStr kind) ->
  transcription_kind kind = true ->
  snd (on_message json_loads message) = inl tt.
Proof.
  intros Hl Ht Hk.
  pose proof (dispatch_transcription _ _ _ Hl Ht Hk) as Hd.
  rewrite on_transcription_completed_eq in Hd.
  destruct (selected_text d);
    try (now rewrite (on_message_catches _ _ _ Hd)).
  destruct (str_truthy (strip s)).
  - destruct (lookup (str "item_id") d).
    + now rewrite (on_message_returns _ _ Hd).
    + now rewrite (on_message_catches _ _ _ Hd).
  - now rewrite (on_message_returns _ _ Hd).
Qed.

(** A delta event prints no final record. *)
Lemma delta_event_not_final message d item_id :
  json_loads message = inl (JDict d) ->
  delta_event item_id d ->
  final_records item_id (fst (on_message json_loads message)) = [].
Proof.
  intros Hl (Ht & Htr & Hi).
  assert (Hk : transcription_kind (fragment_kind false) = true)
    by reflexivity.
  pose proof (dispatch_transcription _ _ _ Hl Ht Hk) as Hd.
  rewrite on_transcription_completed_eq in Hd.
  unfold contains in Hd. rewrite Htr, Hi in Hd.
  destruct (selected_text d);
    try (now rewrite (on_message_catches _ _ _ Hd)).
  destruct (str_truthy (strip s));
    now rewrite (on_message_returns _ _ Hd).
Qed.

(** No message stops the loop, whatever it decodes to: the inner [try]
    catches what the decoder and the handlers raise. *)
Lemma on_message_total message :
  (forall e, json_loads message = inr e -> is_Exception e = true) ->
  snd (on_message json_loads message) = inl tt.
Proof.
  intros He. unfold on_message, dispatch, loads.
  destruct (json_loads message) as [v|e] eqn:E.
  - rewrite bind_ret.
    destruct v as [| | | | |l|d]; cbn [get_receiver]; try reflexivity.
    rewrite bind_ret. cbv zeta.
    repeat match goal with
           | |- context [if eq_str ?v ?k then _ else _] =>
               destruct (eq_str v k)
           end;
      try reflexivity;
      [rewrite on_transcription_completed_eq;
       destruct (selected_text d); try reflexivity;
       destruct (str_truthy (strip s)); try reflexivity;
       destruct (lookup (str "item_id") d); reflexivity ..
      |unfold print_received_event;
       destruct (get d (str "type") (JStr (str ""))); try reflexivity;
       destruct (encodable s); reflexivity].
  - specialize (He e eq_refl). cbv [raise bind try_except].
    destruct (is_JSONDecodeError e); [reflexivity|now rewrite He].
Qed.

End DownlinkFacts.

(** ** The transcript assembler *)

Section Fragments.

Variable json_loads : pystr -> json + exn.

(** C5: a transcription-delta event that carries only a delta text,
    non-empty after trimming, and an item id makes the handler print the
    record [{transcript: text, is_final: false, item_id}]; a
    transcription-completed event that carries only a transcript text,
    non-empty after trimming, and an item id makes it print
    [{transcript: text, is_final: true, item_id}].  [final] chooses between
    the two kinds of event. *)
Theorem fragment_emits_record message d (final : bool) text item_id :
  json_loads message = inl (JDict d) ->
  lookup (str "type") d = Some (JStr (fragment_kind final)) ->
  lookup (text_field final) d = Some (JStr text) ->
  lookup (text_field (negb final)) d = None ->
  strip text <> [] ->
  lookup (str "item_id") d = Some item_id ->
  on_message json_loads message
  = ([Print (Handling (JDict d));
      Print (Output (record (JStr text) final item_id))],
     inl tt).
Proof.
  intros Hl Ht Hf Ho Hs Hi.
  rewrite (on_message_fragment _ message d (fragment_kind final) text Hl Ht).
  - rewrite (str_truthy_true _ Hs), Hi. unfold contains.
    destruct final; cbn [text_field negb] in Hf, Ho; now rewrite ?Hf, ?Ho.
  - now destruct final.
  - destruct final; cbn [text_field negb] in Hf, Ho; [right|left]; auto.
Qed.

(** C4, as the program has it: the text of a transcription-delta or
    transcription-completed event is its [delta] field when it has one, and
    its [transcript] field otherwise; an event whose text is empty or
    whitespace-only after trimming produces no output record: the iteration
    prints the "Handling" line and nothing else. *)
Theorem blank_fragment_is_silent message d kind text :
  json_loads message = inl (JDict d) ->
  lookup (str "type") d = Some (JStr kind) ->
  transcription_kind kind = true ->
  fragment_text d text ->
  strip text = [] ->
  on_message json_loads message = ([Print (Handling (JDict d))], inl tt)
  /\ outputs (fst (on_message json_loads message)) = [].
Proof.
  intros Hl Ht Hk Hf Hs.
  rewrite (on_message_fragment _ message d kind text Hl Ht Hk Hf), Hs.
  now split.
Qed.

(** C1, as the program has it: an event that carries both a [delta] field,
    non-empty after trimming, and a [transcript] field is reported with
    [is_final = true] and with the text of the [delta] field. *)
Theorem both_fields_final_flag_delta_text
    message d kind delta transcript item_id :
  json_loads message = inl (JDict d) ->
  lookup (str "type") d = Some (JStr kind) ->
  transcription_kind kind = true ->
  lookup (str "delta") d = Some (JStr delta) ->
  lookup (str "transcript") d = Some transcript ->
  strip delta <> [] ->
  lookup (str "item_id") d = Some item_id ->
  on_message json_loads message
  = ([Print (Handling (JDict d));
      Print (Output (record (JStr delta) true item_id))],
     inl tt).
Proof.
  intros Hl Ht Hk Hd Htr Hs Hi.
  rewrite (on_message_fragment _ message d kind delta Hl Ht Hk (or_introl Hd)).
  rewrite (str_truthy_true _ Hs), Hi. unfold contains. now rewrite Htr.
Qed.

(** C9: the transcript of every record printed for a transcription event
    is the text of the event as it was received: whitespace around it is
    kept, trimming only decides whether a record is printed. *)
Theorem record_keeps_text message d kind text r :
  json_loads message = inl (JDict d) ->
  lookup (str "type") d = Some (JStr kind) ->
  transcription_kind kind = true ->
  fragment_text d text ->
  In r (outputs (fst (on_message json_loads message))) ->
  exists is_final item_id, r = record (JStr text) is_final item_id.
Proof.
  intros Hl Ht Hk Hf.
  rewrite (on_message_fragment _ message d kind text Hl Ht Hk Hf).
  destruct (str_truthy (strip text));
    [destruct (lookup (str "item_id") d) as [item_id|]|];
    cbn [fst outputs In]; try tauto.
  intros [<-|[]]. now exists (contains (str "transcript") d), item_id.
Qed.

(** C10: a transcription event whose text is non-empty after trimming and
    which has no [item_id] field makes the handler raise [KeyError]; the
    loop catches it and prints the error, no output record is printed, and
    the loop goes on with the next message. *)
Theorem missing_item_id_is_caught message d kind text rest ending :
  json_loads message = inl (JDict d) ->
  lookup (str "type") d = Some (JStr kind) ->
  transcription_kind kind = true ->
  fragment_text d text ->
  strip text <> [] ->
  lookup (str "item_id") d = None ->
  snd (on_transcription_completed d) = inr (KeyError (str "item_id"))
  /\ on_message json_loads message
     = ([Print (Handling (JDict d));
         Print (Error_handling_server_event (KeyError (str "item_id")))],
        inl tt)
  /\ outputs (fst (on_message json_loads message)) = []
  /\ handle_server_events json_loads (message :: rest) ending
     = after [Print (Handling (JDict d));
              Print (Error_handling_server_event (KeyError (str "item_id")))]
         (handle_server_events json_loads rest ending).
Proof.
  intros Hl Ht Hk Hf Hs Hi.
  assert (Hm : on_message json_loads message
               = ([Print (Handling (JDict d));
                   Print (Error_handling_server_event
                            (KeyError (str "item_id")))], inl tt)).
  { rewrite (on_message_fragment _ message d kind text Hl Ht Hk Hf).
    now rewrite (str_truthy_true _ Hs), Hi. }
  repeat split.
  - rewrite on_transcription_completed_eq, (selected_text_fragment _ _ Hf).
    now rewrite (str_truthy_true _ Hs), Hi.
  - exact Hm.
  - now rewrite Hm.
  - now apply handle_server_events_step.
Qed.

(** C2, as the program has it: delta events for an item followed by a
    completed event for it, whose transcript is non-empty after trimming,
    print exactly one record with [is_final = true] for the item.  The
    handler keeps no state per item: the messages that come later are
    handled as a new loop would handle them, whatever their item. *)
Theorem finalized_once_without_item_state
    item_id deltas completed dc text later ending :
  Forall (fun m => exists d,
            json_loads m = inl (JDict d) /\ delta_event item_id d) deltas ->
  json_loads completed = inl (JDict dc) ->
  completed_event item_id dc ->
  lookup (str "transcript") dc = Some (JStr text) ->
  strip text <> [] ->
  final_records item_id
    (fst (handle_server_events json_loads (deltas ++ [completed]) None))
  = [record (JStr text) true (JStr item_id)]
  /\ handle_server_events json_loads (deltas ++ completed :: later) ending
     = after
         (fst (handle_server_events json_loads (deltas ++ [completed]) None))
         (handle_server_events json_loads later ending).
Proof.
  intros Hds Hl (Ht & Hnd & Hi) Htr Hs.
  assert (Hc : on_message json_loads completed
               = ([Print (Handling (JDict dc));
                   Print (Output (record (JStr text) true (JStr item_id)))],
                  inl tt)).
  { rewrite (on_message_fragment _ completed dc (fragment_kind true) text
               Hl Ht eq_refl (or_intror (conj Hnd Htr))).
    rewrite (str_truthy_true _ Hs), Hi. unfold contains. now rewrite Htr. }
  assert (Hall : forall m, In m (deltas ++ [completed]) ->
                           snd (on_message json_loads m) = inl tt).
  { intros m Hin. apply in_app_or in Hin as [Hin|[<-|[]]].
    - rewrite Forall_forall in Hds.
      destruct (Hds m Hin) as (d & Hld & Htd & _).
      now apply (on_message_transcription_returns _ m d (fragment_kind false)).
    - now rewrite Hc. }
  split.
  - rewrite <- (app_nil_r (deltas ++ [completed])).
    rewrite (handle_server_events_trace _ _ [] None Hall).
    rewrite handle_server_events_nil, fst_after_nil.
    rewrite flat_map_app, final_records_app.
    cbn [flat_map]. rewrite Hc, app_nil_r.
    replace (final_records item_id (flat_map _ deltas)) with (@nil json).
    + unfold final_records. cbn [fst outputs filter is_final record lookup].
      cbn. now rewrite str_eqb_refl.
    + clear Hall. induction Hds as [|m ms (d & Hld & Hd) _ IH]; auto.
      cbn [flat_map]. rewrite final_records_app, <- IH.
      now rewrite (delta_event_not_final _ m d item_id Hld Hd).
  - replace (deltas ++ completed :: later)
      with ((deltas ++ [completed]) ++ later)
      by now rewrite <- app_assoc.
    rewrite (handle_server_events_trace _ _ later ending Hall).
    rewrite <- (app_nil_r (deltas ++ [completed])) at 2.
    rewrite (handle_server_events_trace _ _ [] None Hall).
    now rewrite handle_server_events_nil, fst_after_nil.
Qed.

End Fragments.

(** ** The dispatcher and the loop *)

Section Loop.

Variable json_loads : pystr -> json + exn.

(** C6, as the program has it: an event whose kind is none of the
    recognized kinds, and can be written to standard output (it holds no
    lone surrogate), is not an error: the dispatcher prints the kind and
    does nothing else, no exception is raised, and the loop goes on with
    the next message. *)
Theorem unknown_kind_is_ignored message d kind rest ending :
  json_loads message = inl (JDict d) ->
  lookup (str "type") d = Some (JStr kind) ->
  recognized kind = false ->
  encodable kind = true ->
  dispatch json_loads message = ([Print (Received_event (JStr kind))], inl tt)
  /\ on_message json_loads message
     = ([Print (Received_event (JStr kind))], inl tt)
  /\ handle_server_events json_loads (message :: rest) ending
     = after [Print (Received_event (JStr kind))]
         (handle_server_events json_loads rest ending).
Proof.
  intros Hl Ht Hk He.
  assert (Hd : dispatch json_loads message
               = ([Print (Received_event (JStr kind))], inl tt)).
  { unfold dispatch, loads. rewrite Hl, bind_ret.
    cbn [get_receiver]. rewrite bind_ret. unfold get. rewrite Ht.
    unfold recognized, recognized_kinds in Hk. cbn [existsb] in Hk.
    repeat (apply orb_false_elim in Hk as [?E Hk]).
    cbn [eq_str]. rewrite E, E0, E1, E2, E3, E4.
    unfold print_received_event. now rewrite He. }
  pose proof (on_message_returns _ _ _ Hd) as Hm.
  repeat split; auto using handle_server_events_step.
Qed.

(** C7: a message that [json.loads] rejects is reported ("Failed to decode
    message") and produces no output record; the loop goes on and handles
    the messages that follow as it would have without it. *)
Theorem malformed_message_is_skipped message msg rest ending :
  json_loads message = inr (JSONDecodeError msg) ->
  on_message json_loads message
  = ([Print (Failed_to_decode_message (JSONDecodeError msg))], inl tt)
  /\ outputs (fst (on_message json_loads message)) = []
  /\ handle_server_events json_loads (message :: rest) ending
     = after [Print (Failed_to_decode_message (JSONDecodeError msg))]
         (handle_server_events json_loads rest ending).
Proof.
  intros Hl.
  assert (Hm : on_message json_loads message
               = ([Print (Failed_to_decode_message (JSONDecodeError msg))],
                  inl tt)).
  { unfold on_message, dispatch, loads. now rewrite Hl. }
  repeat split; auto using handle_server_events_step.
  now rewrite Hm.
Qed.

End Loop.

(** ** The frame encoder *)

Module Base64Facts.
Import Base64.
Local Open Scope N_scope.

Lemma below_In (n : nat) (x : N) : x < N.of_nat n -> In x (below n).
Proof.
  induction n as [|k IH]; intros H; [lia|].
  destruct (N.eq_dec x (N.of_nat k)) as [->|Hne]; [now left|].
  right. apply IH. lia.
Qed.

Lemma forall_below (n : nat) (P : N -> bool) :
  forallb P (below n) = true -> forall x, x < N.of_nat n -> P x = true.
Proof.
  intros H x Hx. rewrite forallb_forall in H. now apply H, below_In.
Qed.

Lemma forall_below2 (n m : nat) (P : N -> N -> bool) :
  forallb (fun x => forallb (P x) (below m)) (below n) = true ->
  forall x y, x < N.of_nat n -> y < N.of_nat m -> P x y = true.
Proof.
  intros H x y Hx Hy.
  apply (forall_below m (P x)); auto.
  now apply (forall_below n (fun x => forallb (P x) (below m))).
Qed.

Lemma forall_below3 (n m k : nat) (P : N -> N -> N -> bool) :
  forallb (fun x => forallb (fun y => forallb (P x y) (below k)) (below m))
    (below n) = true ->
  forall x y z, x < N.of_nat n -> y < N.of_nat m -> z < N.of_nat k ->
                P x y z = true.
Proof.
  intros H x y z Hx Hy Hz.
  apply (forall_below k (P x y)); auto.
  now apply (forall_below2 n m (fun x y => forallb (P x y) (below k))).
Qed.

Lemma byte_of_to_N (b : byte) : byte_of (Byte.to_N b) = b.
Proof. unfold byte_of. now rewrite Byte.of_to_N. Qed.

Lemma to_N_lt (b : byte) : Byte.to_N b < 256.
Proof. pose proof (Byte.to_N_bounded b). lia. Qed.

(** A 6-bit value is read back from its character, which is not the
    padding character. *)
Lemma dec_enc (s : N) :
  s < 64 -> dec (enc s) = Some s /\ Byte.eqb (enc s) pad = false.
Proof.
  intros H.
  assert (E : (match dec (enc s) with
               | Some s' => s' =? s
               | None => false
               end && negb (Byte.eqb (enc s) pad))%bool = true).
  { revert s H. apply (forall_below 64). vm_compute. reflexivity. }
  apply andb_true_iff in E as [E1 E2].
  destruct (dec (enc s)) as [s'|]; [|discriminate].
  apply N.eqb_eq in E1. apply negb_true_iff in E2. now subst.
Qed.

(** Every character of the encoding is ASCII. *)
Lemma enc_ascii (s : N) : (Byte.to_N (enc s) <? 128) = true.
Proof.
  destruct (N.lt_ge_cases s 64) as [H|H].
  - revert s H. apply (forall_below 64). vm_compute. reflexivity.
  - unfold enc. rewrite nth_overflow; [reflexivity|].
    change (List.length table) with 64%nat. lia.
Qed.

(** The ranges of the parts of a byte. *)
Lemma parts_bounded (x : N) :
  x < 256 ->
  N.shiftr x 2 < 64 /\ N.land x 3 < 4 /\ N.shiftr x 4 < 16
  /\ N.land x 15 < 16 /\ N.shiftr x 6 < 4 /\ N.land x 63 < 64.
Proof.
  intros H.
  assert (E : ((N.shiftr x 2 <? 64) && (N.land x 3 <? 4)
               && (N.shiftr x 4 <? 16) && (N.land x 15 <? 16)
               && (N.shiftr x 6 <? 4) && (N.land x 63 <? 64))%bool = true).
  { revert x H. apply (forall_below 256). vm_compute. reflexivity. }
  repeat (apply andb_true_iff in E as [E ?F]).
  repeat split; now apply N.ltb_lt.
Qed.

Lemma second_sextet_bounded (h q : N) :
  h < 4 -> q < 16 -> N.lor (N.shiftl h 4) q < 64.
Proof.
  intros Hh Hq. apply N.ltb_lt. revert h q Hh Hq.
  apply (forall_below2 4 16 (fun h q => N.lor (N.shiftl h 4) q <? 64)).
  vm_compute. reflexivity.
Qed.

Lemma third_sextet_bounded (m l : N) :
  m < 16 -> l < 4 -> N.lor (N.shiftl m 2) l < 64.
Proof.
  intros Hm Hl. apply N.ltb_lt. revert m l Hm Hl.
  apply (forall_below2 16 4 (fun m l => N.lor (N.shiftl m 2) l <? 64)).
  vm_compute. reflexivity.
Qed.

(** The three bytes are read back from the four 6-bit values. *)
Lemma first_byte_eq (x q : N) :
  x < 256 -> q < 16 ->
  first_byte (N.shiftr x 2) (N.lor (N.shiftl (N.land x 3) 4) q) = byte_of x.
Proof.
  intros Hx Hq. apply Byte.byte_dec_bl. revert x q Hx Hq.
  apply (forall_below2 256 16
           (fun x q =>
              Byte.eqb
                (first_byte (N.shiftr x 2)
                   (N.lor (N.shiftl (N.land x 3) 4) q))
                (byte_of x))).
  vm_compute. reflexivity.
Qed.

Lemma second_byte_eq (h y l : N) :
  h < 4 -> y < 256 -> l < 4 ->
  second_byte (N.lor (N.shiftl h 4) (N.shiftr y 4))
    (N.lor (N.shiftl (N.land y 15) 2) l)
  = byte_of y.
Proof.
  intros Hh Hy Hl. apply Byte.byte_dec_bl. revert h y l Hh Hy Hl.
  apply (forall_below3 4 256 4
           (fun h y l =>
              Byte.eqb
                (second_byte (N.lor (N.shiftl h 4) (N.shiftr y 4))
                   (N.lor (N.shiftl (N.land y 15) 2) l))
                (byte_of y))).
  vm_compute. reflexivity.
Qed.

Lemma third_byte_eq (m z : N) :
  m < 16 -> z < 256 ->
  third_byte (N.lor (N.shiftl m 2) (N.shiftr z 6)) (N.land z 63) = byte_of z.
Proof.
  intros Hm Hz. apply Byte.byte_dec_bl. revert m z Hm Hz.
  apply (forall_below2 16 256
           (fun m z =>
              Byte.eqb
                (third_byte (N.lor (N.shiftl m 2) (N.shiftr z 6))
                   (N.land z 63))
                (byte_of z))).
  vm_compute. reflexivity.
Qed.

(** Induction on a list of bytes, three at a time. *)
Lemma triples_ind (P : list byte -> Prop) :
  P [] ->
  (forall b1, P [b1]) ->
  (forall b1 b2, P [b1; b2]) ->
  (forall b1 b2 b3 rest, P rest -> P (b1 :: b2 :: b3 :: rest)) ->
  forall data, P data.
Proof.
  intros H0 H1 H2 H3.
  assert (H : forall data, P data
                           /\ (forall a, P (a :: data))
                           /\ (forall a b, P (a :: b :: data))).
  { induction data as [|c data (IH0 & IH1 & IH2)]; repeat split; auto. }
  intros data. apply H.
Qed.

Lemma b64encode_ascii (data : list byte) :
  forallb (fun c => Byte.to_N c <? 128) (b64encode data) = true.
Proof.
  induction data as [|b1|b1 b2|b1 b2 b3 rest IH] using triples_ind;
    cbn [b64encode forallb]; rewrite ?enc_ascii; auto.
Qed.

(** The decoder undoes the encoder. *)
Lemma b64decode_b64encode (data : list byte) :
  b64decode (b64encode data) = Some data.
Proof.
  induction data as [|b1|b1 b2|b1 b2 b3 rest IH] using triples_ind.
  - reflexivity.
  - cbn [b64encode b64decode].
    pose proof (to_N_lt b1) as Hx.
    destruct (parts_bounded _ Hx) as (X2 & X3 & _).
    pose proof (second_sextet_bounded _ 0 X3 eq_refl) as S2.
    rewrite N.lor_0_r in S2.
    rewrite (proj1 (dec_enc _ X2)), (proj1 (dec_enc _ S2)).
    change (Byte.eqb pad pad) with true. cbn match.
    pose proof (first_byte_eq _ 0 Hx eq_refl) as E.
    rewrite N.lor_0_r in E. now rewrite E, byte_of_to_N.
  - cbn [b64encode b64decode].
    pose proof (to_N_lt b1) as Hx. pose proof (to_N_lt b2) as Hy.
    destruct (parts_bounded _ Hx) as (X2 & X3 & _).
    destruct (parts_bounded _ Hy) as (_ & _ & Y4 & Y15 & _).
    pose proof (second_sextet_bounded _ _ X3 Y4) as S2.
    pose proof (third_sextet_bounded _ 0 Y15 eq_refl) as S3.
    pose proof (second_byte_eq _ _ 0 X3 Hy eq_refl) as E2.
    rewrite N.lor_0_r in S3, E2.
    rewrite (proj1 (dec_enc _ X2)), (proj1 (dec_enc _ S2)).
    change (Byte.eqb pad pad) with true. cbn match.
    rewrite (proj2 (dec_enc _ S3)), (proj1 (dec_enc _ S3)).
    now rewrite (first_byte_eq _ _ Hx Y4), E2, !byte_of_to_N.
  - cbn [b64encode b64decode].
    pose proof (to_N_lt b1) as Hx. pose proof (to_N_lt b2) as Hy.
    pose proof (to_N_lt b3) as Hz.
    destruct (parts_bounded _ Hx) as (X2 & X3 & _).
    destruct (parts_bounded _ Hy) as (_ & _ & Y4 & Y15 & _).
    destruct (parts_bounded _ Hz) as (_ & _ & _ & _ & Z6 & Z63).
    pose proof (second_sextet_bounded _ _ X3 Y4) as S2.
    pose proof (third_sextet_bounded _ _ Y15 Z6) as S3.
    rewrite (proj1 (dec_enc _ X2)), (proj1 (dec_enc _ S2)).
    rewrite (proj2 (dec_enc _ Z63)).
    rewrite (proj1 (dec_enc _ S3)), (proj1 (dec_enc _ Z63)), IH.
    rewrite (first_byte_eq _ _ Hx Y4), (second_byte_eq _ _ _ X3 Hy Z6).
    now rewrite (third_byte_eq _ _ Y15 Hz), !byte_of_to_N.
Qed.

End Base64Facts.

(** C8: the bytes of a captured buffer are recovered exactly from the
    command event that [stream_audio] builds for it: the event is built
    without error, and decoding the text of its [audio] field gives the
    buffer back. *)
Theorem audio_frame_round_trip (audio_data : list byte) :
  exists event,
    audio_event audio_data = ret event
    /\ receive_audio event = Some audio_data.
Proof.
  unfold audio_event, decode_utf8.
  rewrite Base64Facts.b64encode_ascii, bind_ret.
  eexists; split; [reflexivity|].
  cbn [receive_audio]. change (lookup (str "audio") _) with
    (Some (JStr (List.map Byte.to_N (Base64.b64encode audio_data)))).
  cbn match. unfold encode_ascii. rewrite map_map.
  rewrite (map_ext _ (fun b => b) Base64Facts.byte_of_to_N), map_id.
  apply Base64Facts.b64decode_b64encode.
Qed.

(** ** The uplink loop *)

(** An iteration whose read, send and sleep succeed sends one command, from
    which the receiver recovers the buffer that was read. *)
Lemma stream_step_sends (it : iteration) (audio_data : list byte) :
  stream_read it = inl audio_data ->
  send_result it = None ->
  sleep_result it = None ->
  exists event,
    stream_step it = ([Websocket_send event; Sleep], inl true)
    /\ receive_audio event = Some audio_data.
Proof.
  intros Hr Hs Hz. unfold stream_step. rewrite Hr, Hs, Hz, bind_ret.
  unfold audio_event, decode_utf8.
  rewrite Base64Facts.b64encode_ascii, !bind_ret.
  eexists; split; [reflexivity|].
  cbn [receive_audio]. change (lookup (str "audio") _) with
    (Some (JStr (List.map Byte.to_N (Base64.b64encode audio_data)))).
  cbn match. unfold encode_ascii. rewrite map_map.
  rewrite (map_ext _ (fun b => b) Base64Facts.byte_of_to_N), map_id.
  apply Base64Facts.b64decode_b64encode.
Qed.

(** A send that fails ends the loop: the failure is printed, the stream is
    stopped and closed, and [stream_audio] returns. *)
Lemma stream_audio_send_failure (it : iteration) audio_data e rest :
  stream_read it = inl audio_data ->
  send_result it = Some e ->
  is_Exception e = true ->
  stream_audio None (it :: rest)
  = ([Stream_open; Print (Error_streaming_audio e); Stream_stop; Stream_close],
     inl tt).
Proof.
  intros Hr Hs He. unfold stream_audio. cbn [stream_loop].
  unfold stream_step. rewrite Hr, Hs, bind_ret.
  unfold audio_event, decode_utf8.
  rewrite Base64Facts.b64encode_ascii, !bind_ret.
  cbv [websocket_send raise bind try_except]. rewrite He.
  reflexivity.
Qed.

(** ** The session *)

(** Whatever happens, [connect_and_run] ends by terminating the audio
    object. *)
Lemma audio_always_terminated (s : session) :
  exists tr, fst (connect_and_run s) = tr ++ [Audio_terminate].
Proof.
  unfold connect_and_run, try_finally.
  destruct (try_except _ _) as [out r]. now exists out.
Qed.

(** C3, as the program has it: when opening the connection, or sending the
    session configuration over it, fails with an exception [e], the run ends
    early: nothing is streamed and no event is handled.  The failure is
    caught and printed ("Connection error") and [connect_and_run] returns
    to its caller without raising; the connection is closed if it had been
    opened, and the audio object is terminated. *)
Theorem connection_failure_is_logged (s : session) (e : exn) :
  is_Exception e = true ->
  connect_result s = Some e
  \/ (connect_result s = None /\ config_result s = Some e) ->
  connect_and_run s
  = (match connect_result s with
     | Some _ => []
     | None => [Websocket_open; Websocket_close]
     end ++ [Print (Connection_error e); Audio_terminate],
     inl tt).
Proof.
  intros He [Hc|[Hc Hs]]; unfold connect_and_run; rewrite Hc.
  - cbv [raise try_except]. rewrite He. reflexivity.
  - unfold run_session, send_session_config, websocket_send. rewrite Hs.
    cbv [raise bind perform try_finally try_except app]. rewrite He.
    reflexivity.
Qed.

(** ** The scenarios of the specification, on wire text *)

Example scenario_A_decoded : Json.loads scenario_A = inl (JDict event_A).
Proof. reflexivity. Qed.

Example scenario_B_decoded : Json.loads scenario_B = inl (JDict event_B).
Proof. reflexivity. Qed.

Example scenario_C_decoded : Json.loads scenario_C = inl (JDict event_C).
Proof. reflexivity. Qed.

Example both_fields_decoded : Json.loads both_fields = inl (JDict event_both).
Proof. reflexivity. Qed.

Example malformed_decoded :
  Json.loads malformed = inr (JSONDecodeError (str "Expecting ',' delimiter")).
Proof. reflexivity. Qed.

(** Scenarios A, B, C and E in one stream: two records, for A and for B. *)
Example scenarios_in_sequence :
  outputs (fst (handle_server_events Json.loads
                  [scenario_A; malformed; scenario_B; scenario_C] None))
  = [record (JStr (str "hel")) false (JStr (str "i1"));
     record (JStr (str "hello")) true (JStr (str "i1"))].
Proof. reflexivity. Qed.

Example base64_of_Man :
  Base64.b64encode (list_byte_of_string "Man") = list_byte_of_string "TWFu".
Proof. reflexivity. Qed.

Example base64_padding :
  Base64.b64encode (list_byte_of_string "light work.")
  = list_byte_of_string "bGlnaHQgd29yay4=".
Proof. reflexivity. Qed.

Example strip_spaces : strip (str "  a b  ") = str "a b".
Proof. reflexivity. Qed.

(** Scenario A. *)
Lemma fragment_emits_record_witness :
  on_message Json.loads scenario_A
  = ([Print (Handling (JDict event_A));
      Print (Output (record (JStr (str "hel")) false (JStr (str "i1"))))],
     inl tt).
Proof.
  apply (fragment_emits_record Json.loads scenario_A event_A false
           (str "hel") (JStr (str "i1")));
    try reflexivity.
  discriminate.
Defined.

(** Scenario C. *)
Lemma blank_fragment_is_silent_witness :
  on_message Json.loads scenario_C = ([Print (Handling (JDict event_C))], inl tt)
  /\ outputs (fst (on_message Json.loads scenario_C)) = [].
Proof.
  apply (blank_fragment_is_silent Json.loads scenario_C event_C
           (fragment_kind false) (str "   "));
    try reflexivity.
  left. reflexivity.
Defined.

(** The record of an event with both fields has the text of [delta]. *)
Lemma both_fields_final_flag_delta_text_witness :
  on_message Json.loads both_fields
  = ([Print (Handling (JDict event_both));
      Print (Output (record (JStr (str "hel")) true (JStr (str "i1"))))],
     inl tt).
Proof.
  apply (both_fields_final_flag_delta_text Json.loads both_fields event_both
           (fragment_kind true) (str "hel") (JStr (str "hello"))
           (JStr (str "i1")));
    try reflexivity.
  discriminate.
Defined.

(** C1 fails on the program: for the event with [transcript = "hello"] and
    [delta = "hel"], the record printed has the text ["hel"]. *)
Lemma final_field_is_not_authoritative :
  ~ final_field_is_authoritative Json.loads both_fields.
Proof.
  intros H.
  assert (N1 : str "hel" <> []) by discriminate.
  assert (N2 : str "hello" <> []) by discriminate.
  destruct (H event_both (str "hel") (str "hello")
              eq_refl eq_refl N1 eq_refl N2) as [item_id E].
  vm_compute in E. discriminate E.
Qed.

(** The spaces around [" hi "] are in the record. *)
Lemma record_keeps_text_witness :
  exists is_final item_id,
    record (JStr (str " hi ")) false (JStr (str "i3"))
    = record (JStr (str " hi ")) is_final item_id.
Proof.
  apply (record_keeps_text Json.loads padded_delta event_padded
           (fragment_kind false) (str " hi "));
    try reflexivity.
  - left. reflexivity.
  - left. reflexivity.
Defined.

Lemma missing_item_id_is_caught_witness :
  snd (on_transcription_completed event_no_item_id)
  = inr (KeyError (str "item_id"))
  /\ on_message Json.loads no_item_id
     = ([Print (Handling (JDict event_no_item_id));
         Print (Error_handling_server_event (KeyError (str "item_id")))],
        inl tt)
  /\ outputs (fst (on_message Json.loads no_item_id)) = []
  /\ handle_server_events Json.loads [no_item_id; scenario_B] None
     = after [Print (Handling (JDict event_no_item_id));
              Print (Error_handling_server_event (KeyError (str "item_id")))]
         (handle_server_events Json.loads [scenario_B] None).
Proof.
  apply (missing_item_id_is_caught Json.loads no_item_id event_no_item_id
           (fragment_kind false) (str "hel") [scenario_B] None);
    try reflexivity.
  - left. reflexivity.
  - discriminate.
Defined.

(** Scenarios A and B, and a later event for the same item. *)
Lemma finalized_once_without_item_state_witness :
  final_records (str "i1")
    (fst (handle_server_events Json.loads ([scenario_A] ++ [scenario_B]) None))
  = [record (JStr (str "hello")) true (JStr (str "i1"))]
  /\ handle_server_events Json.loads
       ([scenario_A] ++ scenario_B :: [late_delta]) None
     = after
         (fst (handle_server_events Json.loads
                 ([scenario_A] ++ [scenario_B]) None))
         (handle_server_events Json.loads [late_delta] None).
Proof.
  apply (finalized_once_without_item_state Json.loads (str "i1") [scenario_A]
           scenario_B event_B (str "hello") [late_delta] None);
    try reflexivity.
  - constructor; [|constructor].
    exists event_A. repeat split; reflexivity.
  - repeat split; reflexivity.
  - discriminate.
Defined.

(** C2 fails on the program: after scenarios A and B, a later event for
    item [i1] prints a record for [i1] again. *)
Lemma finalized_item_is_reported_again :
  deltas_then_completed Json.loads (str "i1") [scenario_A] scenario_B
  /\ ~ finalized_and_dropped Json.loads (str "i1")
         [scenario_A] scenario_B [late_delta].
Proof.
  split.
  - split; [discriminate|split].
    + constructor; [|constructor].
      exists event_A. repeat split; reflexivity.
    + exists event_B. repeat split; reflexivity.
  - intros [_ H]. vm_compute in H. discriminate H.
Qed.

Lemma unknown_kind_is_ignored_witness :
  dispatch Json.loads unknown_kind
  = ([Print (Received_event (JStr (str "response.done")))], inl tt)
  /\ on_message Json.loads unknown_kind
     = ([Print (Received_event (JStr (str "response.done")))], inl tt)
  /\ handle_server_events Json.loads [unknown_kind; scenario_A] None
     = after [Print (Received_event (JStr (str "response.done")))]
         (handle_server_events Json.loads [scenario_A] None).
Proof.
  apply (unknown_kind_is_ignored Json.loads unknown_kind event_unknown
           (str "response.done") [scenario_A] None);
    reflexivity.
Defined.

(** Scenario E. *)
Lemma malformed_message_is_skipped_witness :
  on_message Json.loads malformed
  = ([Print (Failed_to_decode_message
               (JSONDecodeError (str "Expecting ',' delimiter")))], inl tt)
  /\ outputs (fst (on_message Json.loads malformed)) = []
  /\ handle_server_events Json.loads [malformed; scenario_A] None
     = after [Print (Failed_to_decode_message
                       (JSONDecodeError (str "Expecting ',' delimiter")))]
         (handle_server_events Json.loads [scenario_A] None).
Proof.
  apply (malformed_message_is_skipped Json.loads malformed
           (str "Expecting ',' delimiter") [scenario_A] None).
  reflexivity.
Defined.

Lemma connection_failure_is_logged_witness :
  connect_and_run cannot_configure
  = ([Websocket_open; Websocket_close;
      Print (Connection_error (ConnectionClosed false)); Audio_terminate],
     inl tt).
Proof.
  apply (connection_failure_is_logged cannot_configure (ConnectionClosed false)).
  - reflexivity.
  - right. split; reflexivity.
Defined.

(** C3 fails on the program: the failure to connect is not raised to the
    caller of [connect_and_run]. *)
Lemma connection_failure_is_absorbed :
  connect_result cannot_connect = Some refused
  /\ ~ failure_is_propagated cannot_connect refused.
Proof.
  split; [reflexivity|].
  intros [H _]. vm_compute in H. discriminate H.
Qed.

(** * More properties of the program *)

(** ** The downlink loop as a whole *)

Section DownlinkMore.

Variable json_loads : pystr -> json + exn.

(** Where the records of one iteration come from. *)
Lemma on_message_outputs message r :
  In r (outputs (fst (on_message json_loads message))) ->
  exists d kind text item_id,
    json_loads message = inl (JDict d)
    /\ lookup (str "type") d = Some (JStr kind)
    /\ transcription_kind kind = true
    /\ selected_text d = JStr text
    /\ strip text <> []
    /\ lookup (str "item_id") d = Some item_id
    /\ r = record (JStr text) (contains (str "transcript") d) item_id.
Proof.
  unfold on_message, dispatch, loads.
  destruct (json_loads message) as [v|e] eqn:E.
  2:{ cbv [raise bind try_except].
      destruct (is_JSONDecodeError e); [intros []|].
      destruct (is_Exception e); intros []. }
  rewrite bind_ret.
  destruct v as [| | | | |l|d]; cbn [get_receiver]; try (intros []).
  rewrite bind_ret. unfold get.
  destruct (lookup (str "type") d) as [v|] eqn:Ht; [|intros []].
  destruct v as [| | | |kind| |]; try (intros []).
  cbv zeta. cbn [eq_str].
  assert (Hh : In r (outputs (fst (try_except (on_transcription_completed d)
               (fun e =>
                  if is_JSONDecodeError e
                  then Some (print (Failed_to_decode_message e))
                  else if is_Exception e
                       then Some (print (Error_handling_server_event e))
                       else None)))) ->
               transcription_kind kind = true ->
               exists d0 kind0 text item_id,
                 @inl json exn (JDict d) = inl (JDict d0)
                 /\ lookup (str "type") d0 = Some (JStr kind0)
                 /\ transcription_kind kind0 = true
                 /\ selected_text d0 = JStr text
                 /\ strip text <> []
                 /\ lookup (str "item_id") d0 = Some item_id
                 /\ r = record (JStr text) (contains (str "transcript") d0)
                          item_id).
  { rewrite on_transcription_completed_eq. intros Hin Hk.
    destruct (selected_text d) as [| | | |text| |] eqn:Hs; try (destruct Hin).
    destruct (strip text) as [|c t] eqn:Hst; [destruct Hin|].
    cbn [str_truthy] in Hin.
    destruct (lookup (str "item_id") d) as [item_id|] eqn:Hi;
      [|destruct Hin].
    destruct Hin as [<-|[]].
    exists d, kind, text, item_id. rewrite Hst. repeat split; auto.
    discriminate. }
  unfold transcription_kind in Hh.
  destruct (str_eqb kind (str "session.created")); [intros []|].
  destruct (str_eqb kind (str "input_audio_buffer.speech_started"));
    [intros []|].
  destruct (str_eqb kind (str "input_audio_buffer.speech_stopped"));
    [intros []|].
  destruct (str_eqb kind
              (str "conversation.item.input_audio_transcription.delta"));
    [intros Hin; now apply Hh|].
  destruct (str_eqb kind
              (str "conversation.item.input_audio_transcription.completed"));
    [intros Hin; now apply Hh|].
  destruct (str_eqb kind (str "error")); [intros []|].
  unfold print_received_event. destruct (encodable kind); intros [].
Qed.





(** X3: the [is_final] flag of a record says whether the event had a
    [transcript] field, whatever the kind of the event: a delta event with
    a [transcript] field is reported as final, a completed event without
    one as not final. *)
Theorem is_final_follows_transcript_field message d r :
  json_loads message = inl (JDict d) ->
  In r (outputs (fst (on_message json_loads message))) ->
  is_final r = contains (str "transcript") d.
Proof.
  intros Hl Hin.
  destruct (on_message_outputs _ _ Hin)
    as (d' & kind & text & item_id & Hl' & _ & _ & _ & _ & _ & ->).
  rewrite Hl in Hl'. injection Hl' as <-.
  now destruct (contains (str "transcript") d).
Qed.

(** X4: the whole loop.  When the decoder raises nothing but exceptions of
    class [Exception], the trace of [handle_server_events] is the traces of
    the iterations, one per message and in order, followed by what the end
    of the connection prints: nothing after a normal close, "Connection to
    OpenAI closed" after [ConnectionClosed], "Error in
    handle_server_events" after another [Exception].  The method returns
    normally in these cases; only an exception outside [Exception], such as
    a cancellation, leaves it. *)
Theorem handle_server_events_eq messages ending :
  (forall m e, In m messages -> json_loads m = inr e ->
               is_Exception e = true) ->
  handle_server_events json_loads messages ending
  = (flat_map (fun m => fst (on_message json_loads m)) messages
     ++ closing_lines ending,
     loop_result ending).
Proof.
  intros H.
  rewrite <- (app_nil_r messages) at 1.
  rewrite handle_server_events_trace.
  - unfold after. f_equal.
    + f_equal. destruct ending as [e|]; [|reflexivity].
      unfold handle_server_events, closing_lines.
      cbv [receive_loop raise try_except].
      destruct (is_ConnectionClosed e); [reflexivity|].
      destruct (is_Exception e); reflexivity.
    + destruct ending as [e|]; [|reflexivity].
      unfold handle_server_events, loop_result.
      cbv [receive_loop raise try_except].
      destruct e; reflexivity.
  - intros m Hin. apply on_message_total. intros e. now apply H.
Qed.

(** X5: a message that is JSON text but not an object (an array, a
    number, a string, [null]) makes [event.get] raise [AttributeError];
    the loop prints the error and no record, and goes on. *)
Theorem non_object_is_caught message v rest ending :
  json_loads message = inl v ->
  (forall d, v <> JDict d) ->
  on_message json_loads message
  = ([Print (Error_handling_server_event (AttributeError v (str "get")))],
     inl tt)
  /\ handle_server_events json_loads (message :: rest) ending
     = after
         [Print (Error_handling_server_event (AttributeError v (str "get")))]
         (handle_server_events json_loads rest ending).
Proof.
  intros Hl Hv.
  assert (Hm : on_message json_loads message
               = ([Print (Error_handling_server_event
                            (AttributeError v (str "get")))], inl tt)).
  { unfold on_message, dispatch, loads. rewrite Hl, bind_ret.
    destruct v; try reflexivity. now destruct (Hv d). }
  split; [exact Hm|now apply handle_server_events_step].
Qed.

(** X6: a transcription event whose text is not a string (a number,
    [null], an object) makes [text.strip()] raise [AttributeError]; the
    loop prints the error after the "Handling" line, prints no record, and
    goes on. *)
Theorem non_string_text_is_caught message d kind text rest ending :
  json_loads message = inl (JDict d) ->
  lookup (str "type") d = Some (JStr kind) ->
  transcription_kind kind = true ->
  selected_text d = text ->
  (forall s, text <> JStr s) ->
  on_message json_loads message
  = ([Print (Handling (JDict d));
      Print (Error_handling_server_event (AttributeError text (str "strip")))],
     inl tt)
  /\ handle_server_events json_loads (message :: rest) ending
     = after
         [Print (Handling (JDict d));
          Print (Error_handling_server_event
                   (AttributeError text (str "strip")))]
         (handle_server_events json_loads rest ending).
Proof.
  intros Hl Ht Hk Hs Hn.
  assert (Hm : on_message json_loads message
               = ([Print (Handling (JDict d));
                   Print (Error_handling_server_event
                            (AttributeError text (str "strip")))], inl tt)).
  { pose proof (dispatch_transcription _ _ _ _ Hl Ht Hk) as Hd.
    rewrite on_transcription_completed_eq, Hs in Hd.
    destruct text; try (now rewrite (on_message_catches _ _ _ _ Hd)).
    now destruct (Hn s). }
  split; [exact Hm|now apply handle_server_events_step].
Qed.

(** X7: an event is routed by the value of its [type] field alone, with
    the empty string standing for a missing field.  When that value is not
    one of the recognized kinds (the field is missing, or is not a string,
    or is another string, which standard output can encode) the loop prints
    it ("Received event") and does nothing else. *)
Theorem unrouted_event_is_printed message d rest ending :
  json_loads message = inl (JDict d) ->
  (forall kind, get d (str "type") (JStr (str "")) = JStr kind ->
                recognized kind = false /\ encodable kind = true) ->
  on_message json_loads message
  = ([Print (Received_event (get d (str "type") (JStr (str ""))))], inl tt)
  /\ handle_server_events json_loads (message :: rest) ending
     = after [Print (Received_event (get d (str "type") (JStr (str ""))))]
         (handle_server_events json_loads rest ending).
Proof.
  intros Hl Hk.
  assert (Hm : on_message json_loads message
               = ([Print (Received_event (get d (str "type") (JStr (str ""))))],
                  inl tt)).
  { apply on_message_returns.
    unfold dispatch, loads. rewrite Hl, bind_ret.
    cbn [get_receiver]. rewrite bind_ret. cbv zeta.
    destruct (get d (str "type") (JStr (str ""))) as [| | | |kind| |];
      try reflexivity.
    destruct (Hk kind eq_refl) as [Hr He]. clear Hk.
    unfold recognized, recognized_kinds in Hr. cbn [existsb] in Hr.
    repeat (apply orb_false_elim in Hr as [?E Hr]).
    cbn [eq_str]. rewrite E, E0, E1, E2, E3, E4.
    unfold print_received_event. now rewrite He. }
  split; [exact Hm|now apply handle_server_events_step].
Qed.

(** X8: an event of kind [session.created],
    [input_audio_buffer.speech_started], [input_audio_buffer.speech_stopped]
    or [error] prints one line, which holds the whole event, and nothing
    else; in particular an [error] event of the service does not stop the
    loop. *)
Theorem simple_event_prints_one_line message d kind l rest ending :
  json_loads message = inl (JDict d) ->
  lookup (str "type") d = Some (JStr kind) ->
  simple_line kind (JDict d) = Some l ->
  on_message json_loads message = ([Print l], inl tt)
  /\ handle_server_events json_loads (message :: rest) ending
     = after [Print l] (handle_server_events json_loads rest ending).
Proof.
  intros Hl Ht Hs.
  assert (Hm : on_message json_loads message = ([Print l], inl tt)).
  { apply on_message_returns.
    unfold dispatch, loads. rewrite Hl, bind_ret.
    cbn [get_receiver]. rewrite bind_ret. unfold get. rewrite Ht.
    cbv zeta. cbn [eq_str]. unfold simple_line in Hs.
    destruct (str_eqb kind (str "session.created")) eqn:E1;
      [now injection Hs as <-|].
    destruct (str_eqb kind (str "input_audio_buffer.speech_started")) eqn:E2;
      [now injection Hs as <-|].
    destruct (str_eqb kind (str "input_audio_buffer.speech_stopped")) eqn:E3;
      [now injection Hs as <-|].
    destruct (str_eqb kind (str "error")) eqn:E4; [|discriminate].
    apply str_eqb_eq in E4. subst kind. now injection Hs as <-. }
  split; [exact Hm|now apply handle_server_events_step].
Qed.

(** X9: a transcription event with neither a [delta] nor a [transcript]
    field is handled with the empty text: the "Handling" line is printed,
    no record is, and nothing is raised, even when the event has no
    [item_id] either. *)
Theorem no_text_field_is_silent message d kind :
  json_loads message = inl (JDict d) ->
  lookup (str "type") d = Some (JStr kind) ->
  transcription_kind kind = true ->
  lookup (str "delta") d = None ->
  lookup (str "transcript") d = None ->
  on_message json_loads message = ([Print (Handling (JDict d))], inl tt).
Proof.
  intros Hl Ht Hk Hd Htr. apply on_message_returns.
  rewrite (dispatch_transcription _ _ _ _ Hl Ht Hk).
  rewrite on_transcription_completed_eq. unfold selected_text.
  now rewrite Hd, Htr.
Qed.

End DownlinkMore.

(** ** Trimming *)

Lemma lstrip_nil_iff (s : pystr) : lstrip s = [] <-> forallb isspace s = true.
Proof.
  induction s as [|c s IH]; cbn [lstrip forallb]; [tauto|].
  destruct (isspace c); cbn [andb]; [exact IH|].
  split; discriminate.
Qed.

Lemma lstrip_head (s : pystr) c t : lstrip s = c :: t -> isspace c = false.
Proof.
  induction s as [|x s IH]; cbn [lstrip]; [discriminate|].
  destruct (isspace x) eqn:E; [exact IH|].
  now intros [= <- _].
Qed.

Lemma forallb_rev {A} (f : A -> bool) (l : list A) :
  forallb f (rev l) = forallb f l.
Proof.
  induction l as [|a l IH]; [reflexivity|].
  cbn [rev forallb]. rewrite forallb_app, IH. cbn [forallb].
  now rewrite andb_true_r, andb_comm.
Qed.

(** [s.strip()] is empty exactly when every character of [s] is
    whitespace. *)
Lemma strip_nil_iff (s : pystr) : strip s = [] <-> forallb isspace s = true.
Proof.
  unfold strip, rstrip. split.
  - intros H. apply lstrip_nil_iff.
    destruct (lstrip s) as [|c t] eqn:E; [reflexivity|].
    pose proof (lstrip_head _ _ _ E) as Hc.
    assert (Hr : lstrip (rev (c :: t)) = []).
    { destruct (lstrip (rev (c :: t))) as [|x l]; [reflexivity|].
      cbn [rev] in H. symmetry in H. now apply app_cons_not_nil in H. }
    apply lstrip_nil_iff in Hr. rewrite forallb_rev in Hr.
    cbn [forallb] in Hr. now rewrite Hc in Hr.
  - intros H. apply lstrip_nil_iff in H. now rewrite H.
Qed.

Section Trimming.

Variable json_loads : pystr -> json + exn.

(** X10: for a transcription event with a text and an item id, a record
    is printed exactly when the text has a character that is not
    whitespace. *)
Theorem record_iff_not_whitespace message d kind text item_id :
  json_loads message = inl (JDict d) ->
  lookup (str "type") d = Some (JStr kind) ->
  transcription_kind kind = true ->
  fragment_text d text ->
  lookup (str "item_id") d = Some item_id ->
  outputs (fst (on_message json_loads message)) <> []
  <-> existsb (fun c => negb (isspace c)) text = true.
Proof.
  intros Hl Ht Hk Hf Hi.
  rewrite (on_message_fragment _ message d kind text Hl Ht Hk Hf), Hi.
  assert (Hw : existsb (fun c => negb (isspace c)) text = true
               <-> strip text <> []).
  { rewrite strip_nil_iff. clear.
    induction text as [|c t IH]; cbn [existsb forallb].
    - split; [discriminate|congruence].
    - destruct (isspace c); cbn [negb orb andb]; [exact IH|].
      split; [discriminate|reflexivity]. }
  rewrite Hw.
  destruct (strip text) as [|c t]; cbn [str_truthy fst outputs];
    split; congruence.
Qed.

End Trimming.

(** ** The frame encoder, continued *)

(** X11: the text of a frame has four characters for every three bytes of
    the buffer, the last group being padded: [4 * ceil (n / 3)]
    characters for [n] bytes. *)
Theorem b64encode_length (data : list byte) :
  List.length (Base64.b64encode data)
  = (4 * ((List.length data + 2) / 3))%nat.
Proof.
  induction data as [|b1|b1 b2|b1 b2 b3 rest IH]
    using Base64Facts.triples_ind; try reflexivity.
  cbn [Base64.b64encode List.length]. rewrite IH.
  replace (S (S (S (List.length rest))) + 2)%nat
    with (List.length rest + 2 + 1 * 3)%nat by lia.
  rewrite Nat.div_add by discriminate. lia.
Qed.

Lemma audio_event_eq (audio_data : list byte) :
  audio_event audio_data = ret (audio_frame audio_data).
Proof.
  unfold audio_event, decode_utf8.
  now rewrite Base64Facts.b64encode_ascii, bind_ret.
Qed.

Lemma receive_audio_frame (audio_data : list byte) :
  receive_audio (audio_frame audio_data) = Some audio_data.
Proof.
  unfold audio_frame. cbn [receive_audio].
  change (lookup (str "audio") _) with
    (Some (JStr (List.map Byte.to_N (Base64.b64encode audio_data)))).
  cbn match. unfold encode_ascii. rewrite map_map.
  rewrite (map_ext _ (fun b => b) Base64Facts.byte_of_to_N), map_id.
  apply Base64Facts.b64decode_b64encode.
Qed.

(** ** The uplink loop, continued *)

Lemma stream_step_good (audio_data : list byte) :
  stream_step (good_iteration audio_data)
  = ([Websocket_send (audio_frame audio_data); Sleep], inl true).
Proof.
  unfold stream_step, good_iteration. cbn [stream_read send_result sleep_result].
  now rewrite bind_ret, audio_event_eq, bind_ret.
Qed.

Lemma stream_loop_good (buffers : list (list byte)) (rest : list iteration) :
  stream_loop (List.map good_iteration buffers ++ rest)
  = after (frames buffers) (stream_loop rest).
Proof.
  induction buffers as [|b bs IH]; cbn [List.map app stream_loop frames flat_map].
  - now rewrite after_nil.
  - rewrite stream_step_good, bind_after, IH.
    change (flat_map _ bs) with (frames bs).
    now rewrite <- after_app.
Qed.

(** X12: while nothing fails, [stream_audio] sends one frame per buffer
    read, in the order of the reads, sleeps after each, and when
    [self.running] becomes false it stops and closes the stream and
    returns. *)
Theorem stream_audio_sends_every_buffer (buffers : list (list byte)) :
  stream_audio None (List.map good_iteration buffers)
  = (Stream_open :: frames buffers ++ [Stream_stop; Stream_close], inl tt).
Proof.
  unfold stream_audio.
  rewrite <- (app_nil_r (List.map good_iteration buffers)), stream_loop_good.
  cbn [stream_loop]. unfold after, ret. cbn [fst snd].
  cbv [bind perform try_except try_finally]. now rewrite app_nil_r.
Qed.

(** X13: a read or a send that fails with an [Exception] ends the uplink
    loop: the frames of the earlier buffers have been sent, nothing is sent
    for this one, the failure is printed ("Error streaming audio"), the
    iterations that would have followed do not run, the stream is stopped
    and closed, and [stream_audio] returns without raising. *)
Theorem stream_audio_stops_at_failure buffers it e rest :
  fails_before_send it e ->
  is_Exception e = true ->
  stream_audio None (List.map good_iteration buffers ++ it :: rest)
  = (Stream_open :: frames buffers
       ++ [Print (Error_streaming_audio e); Stream_stop; Stream_close],
     inl tt).
Proof.
  intros Hf He. unfold stream_audio. rewrite stream_loop_good.
  assert (Hs : stream_step it = ([Print (Error_streaming_audio e)], inl false)).
  { unfold stream_step. destruct Hf as [Hr|(data & Hr & Hs)]; rewrite Hr.
    - cbv [raise bind try_except]. now rewrite He.
    - rewrite bind_ret, audio_event_eq, bind_ret, Hs.
      cbv [websocket_send raise bind try_except]. now rewrite He. }
  cbn [stream_loop]. rewrite Hs.
  unfold after. cbv [bind ret perform try_except try_finally fst snd].
  now rewrite <- app_assoc.
Qed.

(** X14: a cancellation that reaches the loop in its sleep, after the
    frame of the buffer was sent, is not caught by the two [except
    Exception] clauses: the stream is stopped and closed, and
    [CancelledError] leaves [stream_audio]. *)
Theorem stream_audio_cancelled_in_sleep buffers audio_data rest :
  stream_audio None
    (List.map good_iteration buffers
     ++ {| stream_read := inl audio_data;
           send_result := None;
           sleep_result := Some CancelledError |} :: rest)
  = (Stream_open :: frames buffers
       ++ [Websocket_send (audio_frame audio_data);
           Stream_stop; Stream_close],
     inr CancelledError).
Proof.
  unfold stream_audio. rewrite stream_loop_good.
  cbn [stream_loop]. unfold stream_step.
  cbn [stream_read send_result sleep_result].
  rewrite bind_ret, audio_event_eq, bind_ret.
  unfold after.
  cbv [websocket_send raise bind ret perform try_except try_finally fst snd
       is_Exception].
  now rewrite <- app_assoc.
Qed.

(** X15: once the stream is open, [stream_audio] stops and closes it on
    every path, as the last thing it does, and no exception of class
    [Exception] leaves it. *)
Theorem stream_audio_closes_stream (iterations : list iteration) :
  (exists tr, fst (stream_audio None iterations)
              = Stream_open :: tr ++ [Stream_stop; Stream_close])
  /\ (forall e, snd (stream_audio None iterations) = inr e ->
                is_Exception e = false).
Proof.
  unfold stream_audio.
  destruct (stream_loop iterations) as [out [[]|e]].
  - split; [now exists out|discriminate].
  - cbv [bind perform try_except try_finally fst snd].
    destruct (is_Exception e) eqn:He.
    + split; [|discriminate].
      exists (out ++ [Print (Error_in_audio_streaming e)]).
      reflexivity.
    + split; [now exists out|].
      now intros e' [= <-].
Qed.

(** ** The session, continued *)

(** How [connect_and_run] ends: normally, or with an exception that is
    not of class [Exception]. *)
Lemma connect_and_run_result (s : session) :
  snd (connect_and_run s) = inl tt
  \/ exists e, snd (connect_and_run s) = inr e /\ is_Exception e = false.
Proof.
  unfold connect_and_run.
  match goal with
  | |- context [try_except ?body ?h] => destruct body as [out [[]|e']]
  end; cbv [try_except try_finally perform print snd]; [now left|].
  destruct (is_Exception e') eqn:He; [now left|].
  right. now exists e'.
Qed.


(** X17: a connection that was opened is closed, whatever happens in the
    session: after the effects of the session the trace has the close of
    the connection, then at most the "Connection error" line, then the
    termination of the audio object. *)
Theorem websocket_is_closed (s : session) :
  connect_result s = None ->
  exists tail,
    fst (connect_and_run s)
    = Websocket_open :: fst (run_session s) ++ Websocket_close :: tail
    /\ (tail = [Audio_terminate]
        \/ exists e, tail = [Print (Connection_error e); Audio_terminate]).
Proof.
  intros Hc. unfold connect_and_run. rewrite Hc.
  destruct (run_session s) as [out [[]|e]];
    cbv [bind perform print try_except try_finally fst snd].
  - exists [Audio_terminate]. cbn. rewrite <- app_assoc. auto.
  - destruct (is_Exception e).
    + exists [Print (Connection_error e); Audio_terminate].
      cbn. rewrite <- !app_assoc. eauto.
    + exists [Audio_terminate]. cbn. rewrite <- app_assoc. auto.
Qed.

Lemma await_cancelled_returns (result : option exn) :
  finished_or_cancelled result -> await_cancelled result = ret tt.
Proof. now intros [->| ->]. Qed.

(** X18: a run that is stopped by the trigger.  When the connection and
    the configuration succeed and each task has finished or is cancelled,
    [connect_and_run] sends the configuration first, sets [running], lets
    the tasks run, clears [running] at the trigger, then closes the
    connection and terminates the audio object, and returns: the
    cancellations of the tasks are not errors. *)
Theorem stopped_run_is_clean (s : session) :
  connect_result s = None ->
  config_result s = None ->
  input_result s = None ->
  finished_or_cancelled (audio_task_result s) ->
  finished_or_cancelled (events_task_result s) ->
  connect_and_run s
  = (session_effects s ++ [Websocket_close; Audio_terminate], inl tt).
Proof.
  intros Hc Hs Hi Ha He. unfold connect_and_run, run_session.
  rewrite Hc, Hi, (await_cancelled_returns _ Ha), (await_cancelled_returns _ He).
  unfold send_session_config, websocket_send. rewrite Hs.
  unfold session_effects.
  cbv [bind ret perform perform_all await try_except try_finally fst snd].
  cbn [app]. now rewrite !app_nil_r, <- !app_assoc.
Qed.

(** X19: a failure of the audio task, such as a capture device that cannot
    be opened, is seen only when the task is awaited, after the stop
    trigger.  It is then printed as a "Connection error", the events task
    is not awaited, the connection is closed and the audio object
    terminated, and [connect_and_run] returns. *)
Theorem audio_task_failure_is_reported_at_stop (s : session) (e : exn) :
  connect_result s = None ->
  config_result s = None ->
  input_result s = None ->
  audio_task_result s = Some e ->
  is_Exception e = true ->
  connect_and_run s
  = (session_effects s
     ++ [Websocket_close; Print (Connection_error e); Audio_terminate],
     inl tt).
Proof.
  intros Hc Hs Hi Ha He. unfold connect_and_run, run_session.
  rewrite Hc, Hi, Ha.
  unfold send_session_config, websocket_send. rewrite Hs.
  unfold session_effects, await_cancelled.
  assert (Hw : try_except (await (Some e))
                 (fun e0 => match e0 with
                            | CancelledError => Some (ret tt)
                            | _ => None
                            end) = raise e) by now destruct e.
  rewrite Hw.
  cbv [bind ret raise perform perform_all print await try_except try_finally
       fst snd].
  rewrite He. cbn [app]. now rewrite !app_nil_r, <- !app_assoc.
Qed.

(** X20: when the wait for the stop trigger is itself cancelled,
    [self.running] is never set back to false and the tasks are neither
    cancelled nor awaited by [connect_and_run]; the connection is closed,
    the audio object terminated, and [CancelledError] leaves the method. *)
Theorem cancelled_wait_leaves_running_set (s : session) :
  connect_result s = None ->
  config_result s = None ->
  input_result s = Some CancelledError ->
  connect_and_run s
  = ([Websocket_open; Websocket_send session_config; Set_running true]
     ++ tasks_before_stop s ++ [Websocket_close; Audio_terminate],
     inr CancelledError).
Proof.
  intros Hc Hs Hi. unfold connect_and_run, run_session.
  rewrite Hc, Hi. unfold send_session_config, websocket_send. rewrite Hs.
  cbv [bind ret raise perform perform_all print await try_except try_finally
       fst snd is_Exception].
  cbn [app]. now rewrite <- !app_assoc.
Qed.

(** ** The entry point *)

(** X21: without an API key, or with an empty one, [main] prints the
    error of the constructor and does nothing else: no audio object is
    made, no connection is attempted, and [main] returns. *)
Theorem main_without_api_key api_key pyaudio_result (s : session) :
  api_key = None \/ api_key = Some [] ->
  main api_key pyaudio_result s
  = ([Print_Error
        (OtherException (str "ValueError")
           (str "API_KEY environment variable is required"))],
     inl tt).
Proof. now intros [->| ->]. Qed.

(** X22: with an API key and an audio object, [main] does what
    [connect_and_run] does and ends as it ends: [connect_and_run] catches
    every [Exception] itself, so the "Error:" line of [main] is never
    printed for a failure of the session. *)
Theorem main_runs_the_session api_key pyaudio_result (s : session) :
  api_key <> None -> api_key <> Some [] -> pyaudio_result = None ->
  main api_key pyaudio_result s
  = (List.map Of_session (fst (connect_and_run s)), snd (connect_and_run s)).
Proof.
  intros Hn He ->. unfold main, init.
  destruct api_key as [[|c k]|]; try congruence.
  rewrite bind_ret.
  pose proof (connect_and_run_result s) as Hx.
  destruct (connect_and_run s) as [out [[]|e]]; cbn [fst snd] in *;
    [reflexivity|].
  destruct Hx as [Hx|(e' & [= <-] & Hx)]; [discriminate|].
  now rewrite Hx.
Qed.

(** ** The properties above on concrete inputs *)

(** The decoder of module [Json] raises [JSONDecodeError] only. *)
Lemma loads_raises_Exception (s : pystr) (e : exn) :
  Json.loads s = inr e -> is_Exception e = true.
Proof.
  unfold Json.loads.
  repeat match goal with
         | |- context [match ?x with _ => _ end] => destruct x
         end;
    intros [= <-]; reflexivity.
Qed.



Lemma is_final_follows_transcript_field_witness :
  is_final (record (JStr (str "done")) true (JStr (str "i6")))
  = contains (str "transcript") event_delta_with_transcript.
Proof.
  apply (is_final_follows_transcript_field Json.loads delta_with_transcript).
  - reflexivity.
  - left. reflexivity.
Defined.

Lemma handle_server_events_eq_witness :
  handle_server_events Json.loads [scenario_A; malformed; scenario_B]
    (Some (ConnectionClosed false))
  = (flat_map (fun m => fst (on_message Json.loads m))
       [scenario_A; malformed; scenario_B]
     ++ closing_lines (Some (ConnectionClosed false)),
     loop_result (Some (ConnectionClosed false))).
Proof.
  apply (handle_server_events_eq Json.loads).
  intros m e _ H. exact (loads_raises_Exception m e H).
Defined.

Lemma non_object_is_caught_witness :
  on_message Json.loads array_message
  = ([Print (Error_handling_server_event
               (AttributeError (JList [JInt 1; JInt 2]) (str "get")))],
     inl tt)
  /\ handle_server_events Json.loads [array_message; scenario_A] None
     = after
         [Print (Error_handling_server_event
                   (AttributeError (JList [JInt 1; JInt 2]) (str "get")))]
         (handle_server_events Json.loads [scenario_A] None).
Proof.
  apply (non_object_is_caught Json.loads array_message
           (JList [JInt 1; JInt 2]) [scenario_A] None).
  - reflexivity.
  - discriminate.
Defined.

Lemma non_string_text_is_caught_witness :
  on_message Json.loads number_delta
  = ([Print (Handling (JDict event_number_delta));
      Print (Error_handling_server_event
               (AttributeError (JInt 5) (str "strip")))],
     inl tt)
  /\ handle_server_events Json.loads [number_delta; scenario_A] None
     = after
         [Print (Handling (JDict event_number_delta));
          Print (Error_handling_server_event
                   (AttributeError (JInt 5) (str "strip")))]
         (handle_server_events Json.loads [scenario_A] None).
Proof.
  apply (non_string_text_is_caught Json.loads number_delta event_number_delta
           (fragment_kind false) (JInt 5) [scenario_A] None);
    try reflexivity.
  discriminate.
Defined.

Lemma unrouted_event_is_printed_witness :
  on_message Json.loads no_type
  = ([Print (Received_event
               (get event_no_type (str "type") (JStr (str ""))))], inl tt)
  /\ handle_server_events Json.loads [no_type; scenario_A] None
     = after
         [Print (Received_event
                   (get event_no_type (str "type") (JStr (str ""))))]
         (handle_server_events Json.loads [scenario_A] None).
Proof.
  apply (unrouted_event_is_printed Json.loads no_type event_no_type
           [scenario_A] None).
  - reflexivity.
  - intros kind [= <-]. split; reflexivity.
Defined.

Lemma simple_event_prints_one_line_witness :
  on_message Json.loads error_message
  = ([Print (Error (JDict event_error))], inl tt)
  /\ handle_server_events Json.loads [error_message; scenario_A] None
     = after [Print (Error (JDict event_error))]
         (handle_server_events Json.loads [scenario_A] None).
Proof.
  apply (simple_event_prints_one_line Json.loads error_message event_error
           (str "error") (Error (JDict event_error)) [scenario_A] None);
    reflexivity.
Defined.

Lemma no_text_field_is_silent_witness :
  on_message Json.loads bare_delta
  = ([Print (Handling (JDict event_bare_delta))], inl tt).
Proof.
  apply (no_text_field_is_silent Json.loads bare_delta event_bare_delta
           (fragment_kind false));
    reflexivity.
Defined.

Lemma record_iff_not_whitespace_witness :
  outputs (fst (on_message Json.loads scenario_A)) <> []
  <-> existsb (fun c => negb (isspace c)) (str "hel") = true.
Proof.
  apply (record_iff_not_whitespace Json.loads scenario_A event_A
           (fragment_kind false) (str "hel") (JStr (str "i1")));
    try reflexivity.
  left. reflexivity.
Defined.

Lemma stream_audio_stops_at_failure_witness :
  stream_audio None
    (List.map good_iteration [buffer_1]
     ++ failing_send :: [good_iteration buffer_1])
  = (Stream_open :: frames [buffer_1]
       ++ [Print (Error_streaming_audio broken_pipe);
           Stream_stop; Stream_close],
     inl tt).
Proof.
  apply (stream_audio_stops_at_failure [buffer_1] failing_send broken_pipe
           [good_iteration buffer_1]).
  - right. exists buffer_2. split; reflexivity.
  - reflexivity.
Defined.


Lemma websocket_is_closed_witness :
  exists tail,
    fst (connect_and_run clean_session)
    = Websocket_open :: fst (run_session clean_session)
        ++ Websocket_close :: tail
    /\ (tail = [Audio_terminate]
        \/ exists e, tail = [Print (Connection_error e); Audio_terminate]).
Proof.
  apply (websocket_is_closed clean_session). reflexivity.
Defined.

Lemma stopped_run_is_clean_witness :
  connect_and_run clean_session
  = (session_effects clean_session ++ [Websocket_close; Audio_terminate],
     inl tt).
Proof.
  apply (stopped_run_is_clean clean_session); try reflexivity;
    right; reflexivity.
Defined.

Lemma audio_task_failure_is_reported_at_stop_witness :
  connect_and_run deaf_session
  = (session_effects deaf_session
     ++ [Websocket_close; Print (Connection_error no_microphone);
         Audio_terminate],
     inl tt).
Proof.
  apply (audio_task_failure_is_reported_at_stop deaf_session no_microphone);
    reflexivity.
Defined.

Lemma cancelled_wait_leaves_running_set_witness :
  connect_and_run cancelled_session
  = ([Websocket_open; Websocket_send session_config; Set_running true]
     ++ tasks_before_stop cancelled_session
     ++ [Websocket_close; Audio_terminate],
     inr CancelledError).
Proof.
  apply (cancelled_wait_leaves_running_set cancelled_session); reflexivity.
Defined.

Lemma main_without_api_key_witness :
  main (Some []) None clean_session
  = ([Print_Error
        (OtherException (str "ValueError")
           (str "API_KEY environment variable is required"))],
     inl tt).
Proof.
  apply (main_without_api_key (Some []) None clean_session).
  right. reflexivity.
Defined.

Lemma main_runs_the_session_witness :
  main (Some (str "sk-test")) None deaf_session
  = (List.map Of_session (fst (connect_and_run deaf_session)),
     snd (connect_and_run deaf_session)).
Proof.
  apply (main_runs_the_session (Some (str "sk-test")) None deaf_session);
    [discriminate|discriminate|reflexivity].
Defined.

(** ** Blank final text beside a delta, and kinds that cannot be printed *)

(** C4 fails on the program: a completed event whose [transcript] is blank
    and which also carries the [delta] ["hel"] prints a record. *)
Lemma blank_transcript_with_delta_is_reported :
  ~ blank_text_is_silent Json.loads blank_final_with_delta.
Proof.
  intros H.
  specialize (H event_blank_final_with_delta true (str "   ")
                eq_refl eq_refl eq_refl eq_refl).
  vm_compute in H. discriminate H.
Qed.

Example blank_final_with_delta_trace :
  on_message Json.loads blank_final_with_delta
  = ([Print (Handling (JDict event_blank_final_with_delta));
      Print (Output (record (JStr (str "hel")) true (JStr (str "i1"))))],
     inl tt).
Proof. reflexivity. Qed.

(** C6 fails on the program: for an event whose kind is a lone surrogate,
    the print of the kind raises and the kind is not printed. *)
Lemma surrogate_kind_is_not_logged :
  ~ unknown_kind_is_logged Json.loads surrogate_kind.
Proof.
  intros H.
  specialize (H event_surrogate_kind [55296%N] eq_refl eq_refl eq_refl).
  vm_compute in H. discriminate H.
Qed.

Section Unencodable.

Variable json_loads : pystr -> json + exn.

(** X24: an event whose kind is none of the recognized kinds and holds a
    lone surrogate is not printed as "Received event": the print raises
    [UnicodeEncodeError] inside the inner [try], the loop prints "Error
    handling server event" instead, and goes on with the next message. *)
Theorem unencodable_kind_is_caught message d kind rest ending :
  json_loads message = inl (JDict d) ->
  lookup (str "type") d = Some (JStr kind) ->
  recognized kind = false ->
  encodable kind = false ->
  dispatch json_loads message = ([], inr UnicodeEncodeError)
  /\ on_message json_loads message
     = ([Print (Error_handling_server_event UnicodeEncodeError)], inl tt)
  /\ handle_server_events json_loads (message :: rest) ending
     = after [Print (Error_handling_server_event UnicodeEncodeError)]
         (handle_server_events json_loads rest ending).
Proof.
  intros Hl Ht Hk He.
  assert (Hd : dispatch json_loads message = ([], inr UnicodeEncodeError)).
  { unfold dispatch, loads. rewrite Hl, bind_ret.
    cbn [get_receiver]. rewrite bind_ret. unfold get. rewrite Ht.
    unfold recognized, recognized_kinds in Hk. cbn [existsb] in Hk.
    repeat (apply orb_false_elim in Hk as [?E Hk]).
    cbn [eq_str]. rewrite E, E0, E1, E2, E3, E4.
    unfold print_received_event. now rewrite He. }
  pose proof (on_message_catches _ _ _ _ Hd eq_refl eq_refl) as Hm.
  cbn [app] in Hm.
  repeat split; auto using handle_server_events_step.
Qed.

End Unencodable.

Lemma unencodable_kind_is_caught_witness :
  dispatch Json.loads surrogate_kind = ([], inr UnicodeEncodeError)
  /\ on_message Json.loads surrogate_kind
     = ([Print (Error_handling_server_event UnicodeEncodeError)], inl tt)
  /\ handle_server_events Json.loads [surrogate_kind; scenario_A] None
     = after [Print (Error_handling_server_event UnicodeEncodeError)]
         (handle_server_events Json.loads [scenario_A] None).
Proof.
  apply (unencodable_kind_is_caught Json.loads surrogate_kind
           event_surrogate_kind [55296%N] [scenario_A] None);
    reflexivity.
Defined.
